(** * dirsearch: lib/connection/requester.py

    A shallow embedding of the [Requester] class (construction, header
    store, proxy selection and the retry loop of [request]) together with
    the properties of its behaviour.

    Python strings are modelled as [string] whose characters are the code
    points below 256.  The pieces of the Python standard library that the
    class calls ([str] methods, [int], [urllib.parse.urlparse],
    [urllib.parse.quote]) are modelled after CPython 3.8.  The operating
    system and the network are oracles: [dns] for [socket.gethostbyname],
    [transport] for [session.request] and [rnd] for [random.choice]. *)

From Stdlib Require Import ZArith Lia Ascii.
From stdpp Require Import base option list strings gmap pretty.

Local Open Scope Z_scope.

(** stdpp keeps [String.append] folded; the development computes with it. *)
#[local] Arguments String.append : simpl nomatch.

(** ** Python string primitives *)

Module Py.

(** [s.startswith(p)] *)
Fixpoint startswith (p s : string) : bool :=
  match p, s with
  | EmptyString, _ => true
  | String a p', String b s' => if Ascii.eqb a b then startswith p' s' else false
  | String _ _, EmptyString => false
  end.

(** [p in s] for strings *)
Fixpoint contains (p s : string) : bool :=
  startswith p s ||
  match s with
  | EmptyString => false
  | String _ s' => contains p s'
  end.

(** [c in s] for one character *)
Fixpoint has_char (c : ascii) (s : string) : bool :=
  match s with
  | EmptyString => false
  | String a s' => Ascii.eqb a c || has_char c s'
  end.

(** [s.endswith("/")] *)
Fixpoint endswith_char (c : ascii) (s : string) : bool :=
  match s with
  | EmptyString => false
  | String a EmptyString => Ascii.eqb a c
  | String _ s' => endswith_char c s'
  end.

(** [s.find(c)], with [None] for Python's [-1] *)
Fixpoint find (c : ascii) (s : string) : option nat :=
  match s with
  | EmptyString => None
  | String a s' => if Ascii.eqb a c then Some 0%nat else S <$> find c s'
  end.

(** [s.rfind(c)] *)
Fixpoint rfind (c : ascii) (s : string) : option nat :=
  match s with
  | EmptyString => None
  | String a s' =>
      match rfind c s' with
      | Some i => Some (S i)
      | None => if Ascii.eqb a c then Some 0%nat else None
      end
  end.

(** [s[:n]] and [s[n:]] *)
Fixpoint take (n : nat) (s : string) : string :=
  match n, s with
  | S n', String a s' => String a (take n' s')
  | _, _ => EmptyString
  end.

Fixpoint drop (n : nat) (s : string) : string :=
  match n, s with
  | S n', String _ s' => drop n' s'
  | _, _ => s
  end.

(** [s.split(c)]: never empty, one more piece than there are [c] in [s] *)
Fixpoint split (c : ascii) (s : string) : list string :=
  match s with
  | EmptyString => [EmptyString]
  | String a s' =>
      if Ascii.eqb a c then EmptyString :: split c s'
      else match split c s' with
           | piece :: rest => String a piece :: rest
           | [] => [String a EmptyString]
           end
  end.

Definition forallb_str (f : ascii -> bool) (s : string) : bool :=
  forallb f (String.list_ascii_of_string s).

Definition code (c : ascii) : N := Ascii.N_of_ascii c.

Definition in_range (lo hi : N) (c : ascii) : bool :=
  ((lo <=? code c) && (code c <=? hi))%N.

Definition is_digit (c : ascii) : bool := in_range 48 57 c.
Definition is_upper (c : ascii) : bool := in_range 65 90 c.
Definition is_lower (c : ascii) : bool := in_range 97 122 c.
Definition is_alpha (c : ascii) : bool := is_upper c || is_lower c.

(** [str.isspace] on one code point below 256 *)
Definition is_space (c : ascii) : bool :=
  in_range 9 13 c || in_range 28 32 c || (code c =? 133)%N || (code c =? 160)%N.

Definition lower_char (c : ascii) : ascii :=
  if is_upper c then Ascii.ascii_of_N (code c + 32) else c.

(** [s.lower()], used on URL schemes only (ASCII) *)
Fixpoint lower (s : string) : string :=
  match s with
  | EmptyString => EmptyString
  | String a s' => String (lower_char a) (lower s')
  end.

Fixpoint lstrip (s : string) : string :=
  match s with
  | String a s' => if is_space a then lstrip s' else s
  | EmptyString => EmptyString
  end.

Fixpoint rstrip (s : string) : string :=
  match s with
  | EmptyString => EmptyString
  | String a s' =>
      match rstrip s' with
      | EmptyString => if is_space a then EmptyString else String a EmptyString
      | t => String a t
      end
  end.

(** [s.strip()] *)
Definition strip (s : string) : string := rstrip (lstrip s).

(** Truth value of a string, and of an optional string ([None] is false) *)
Definition truthy (s : string) : bool :=
  match s with EmptyString => false | _ => true end.

Definition truthy_opt (o : option string) : bool :=
  match o with Some s => truthy s | None => false end.

(** ["{0}".format(x)] for an [int] *)
Definition str_of_int (z : Z) : string := pretty z.

(** ["{0}".format(x)] for a value that is a string or [None] *)
Definition str_of_opt (o : option string) : string :=
  match o with Some s => s | None => "None" end.

(** The digits of [int(s)]: decimal digits, single underscores allowed
    between two digits.  [acc] is the value read so far, [after_digit]
    tells whether the previous character was a digit. *)
Fixpoint int_digits (s : string) (acc : Z) (after_digit : bool) : option Z :=
  match s with
  | EmptyString => if after_digit then Some acc else None
  | String a s' =>
      if is_digit a then int_digits s' (10 * acc + Z.of_N (code a - 48)) true
      else if Ascii.eqb a "_"%char then
        if after_digit then int_digits s' acc false else None
      else None
  end.

(** The blanks [int] skips before the sign and after the digits.  [int]
    leaves code points below 127 as they are and skips those that C's
    isspace knows (tab, LF, VT, FF, CR, space); beyond ASCII it takes the
    Unicode spaces (U+0085, U+00A0) for a space.  The separators
    U+001C..U+001F, which [str.strip] removes, are not skipped. *)
Definition is_int_space (c : ascii) : bool :=
  in_range 9 13 c || (code c =? 32)%N || (code c =? 133)%N || (code c =? 160)%N.

Fixpoint int_lskip (s : string) : string :=
  match s with
  | String a s' => if is_int_space a then int_lskip s' else s
  | EmptyString => EmptyString
  end.

Fixpoint int_rskip (s : string) : string :=
  match s with
  | EmptyString => EmptyString
  | String a s' =>
      match int_rskip s' with
      | EmptyString => if is_int_space a then EmptyString else String a EmptyString
      | t => String a t
      end
  end.

(** [int(s)]: [None] stands for [ValueError] *)
Definition int (s : string) : option Z :=
  match int_rskip (int_lskip s) with
  | String "+"%char d => int_digits d 0 false
  | String "-"%char d => Z.opp <$> int_digits d 0 false
  | d => int_digits d 0 false
  end.

End Py.

(** ** Exceptions that leave the class, and the error monad *)

Inductive pyerr : Type :=
| RequestException (message : string)   (* lib.connection.request_exception *)
| ValueError (message : string)         (* raised by urllib.parse *)
| AttributeError (attribute : string).  (* reading a field never assigned *)

Inductive result (A : Type) : Type :=
| Ok (a : A)
| Err (e : pyerr).
Arguments Ok {A} a.
Arguments Err {A} e.

Definition bind {A B : Type} (m : result A) (k : A -> result B) : result B :=
  match m with
  | Ok a => k a
  | Err e => Err e
  end.

Notation "x <- m ;; k" := (bind m (fun x => k))
  (at level 100, m at next level, right associativity).

(** ** urllib.parse *)

Module Urllib.
Import Py.

Record ParseResult : Type := mkParse {
  scheme : string;
  netloc : string;
  path : string;
  params : string;
  query : string;
  fragment : string
}.

(** [scheme_chars]: letters, digits and [+-.] *)
Definition scheme_char (c : ascii) : bool :=
  is_alpha c || is_digit c || has_char c "+-.".

(** [_splitnetloc(url, 2)]: the text after the two slashes, up to the
    first of [/], [?], [#] *)
Fixpoint span_netloc (s : string) : string * string :=
  match s with
  | EmptyString => (EmptyString, EmptyString)
  | String a s' =>
      if has_char a "/?#" then (EmptyString, s)
      else let '(n, r) := span_netloc s' in (String a n, r)
  end.

Definition splitnetloc (url : string) : string * string := span_netloc (drop 2 url).

(** [s.split(c, 1)] when [c in s]: the text before and after the first [c] *)
Definition split_once (c : ascii) (s : string) : string * string :=
  match find c s with
  | Some i => (take i s, drop (S i) s)
  | None => (s, EmptyString)
  end.

(** The tail of [urlsplit], shared by its two exits: network location,
    fragment, query.  [_checknetloc] only rejects characters whose NFKC
    form contains one of [/?#@:], none of which is a code point below
    256, so it does not appear. *)
Definition split_rest (sch url : string) : result ParseResult :=
  nu <- (if startswith "//" url then
           let '(n, u) := splitnetloc url in
           if (has_char "[" n && negb (has_char "]" n)) ||
              (has_char "]" n && negb (has_char "[" n))
           then Err (ValueError "Invalid IPv6 URL")
           else Ok (n, u)
         else Ok (EmptyString, url)) ;;
  let '(n, u) := nu in
  let '(u, frag) := if has_char "#" u then split_once "#" u else (u, EmptyString) in
  let '(u, q) := if has_char "?" u then split_once "?" u else (u, EmptyString) in
  Ok (mkParse sch n u EmptyString q frag).

(** [urlsplit(url)] with the default [scheme=''] *)
Definition urlsplit (url : string) : result ParseResult :=
  match find ":" url with
  | Some (S i' as i) =>
      if String.eqb (take i url) "http" then split_rest "http" (drop (S i) url)
      else if forallb_str scheme_char (take i url) then
        let rest := drop (S i) url in
        if negb (truthy rest) || negb (forallb_str is_digit rest)
        then split_rest (lower (take i url)) rest
        else split_rest EmptyString url
      else split_rest EmptyString url
  | _ => split_rest EmptyString url
  end.

Definition uses_params : list string :=
  [""; "ftp"; "hdl"; "prospero"; "http"; "imap"; "https"; "shttp"; "rtsp";
   "rtspu"; "sip"; "sips"; "mms"; "sftp"; "tel"].

(** [_splitparams(url)], called only when [';' in url] *)
Definition splitparams (url : string) : string * string :=
  match rfind "/" url with
  | Some k =>
      match find ";" (drop k url) with
      | Some j => (take (k + j) url, drop (S (k + j)) url)
      | None => (url, EmptyString)
      end
  | None => split_once ";" url
  end.

(** [urlparse(url)] *)
Definition urlparse (url : string) : result ParseResult :=
  r <- urlsplit url ;;
  if existsb (String.eqb (scheme r)) uses_params && has_char ";" (path r) then
    let '(u, p) := splitparams (path r) in
    Ok (mkParse (scheme r) (netloc r) u p (query r) (fragment r))
  else Ok r.

Definition hex_digit (n : N) : ascii :=
  if (n <? 10)%N then ascii_of_N (48 + n) else ascii_of_N (55 + n).

(** ['%{:02X}'.format(b)] *)
Definition percent (b : N) : string :=
  String "%" (String (hex_digit (b / 16)) (String (hex_digit (b mod 16)) EmptyString)).

(** [_ALWAYS_SAFE]: letters, digits and [_.-~] *)
Definition always_safe (c : ascii) : bool :=
  is_alpha c || is_digit c || has_char c "_.-~".

(** One code point of [quote]: a code point below 128 is one byte, kept
    when it is safe; a code point from 128 to 255 is two UTF-8 bytes,
    both percent-encoded. *)
Definition quote_char (safe : string) (c : ascii) : string :=
  if (code c <? 128)%N then
    if always_safe c || has_char c safe then String c EmptyString
    else percent (code c)
  else percent (192 + code c / 64) +:+ percent (128 + code c mod 64).

(** [quote(s, safe=safe)] for a [str]; [safe] is ASCII *)
Fixpoint quote (s safe : string) : string :=
  match s with
  | EmptyString => EmptyString
  | String a s' => quote_char safe a +:+ quote s' safe
  end.

End Urllib.

(** ** The Requester object *)

Import Py.

(** The fields assigned by [__init__].  [ip] is [None] when the attribute
    was never assigned.  A header value is a string or Python's [None].
    [pool] (always [None]) and [session] (the transport handle) carry no
    data and are left out. *)
Record Requester : Type := mkRequester {
  httpmethod : string;
  data : option string;
  headers : gmap string (option string);
  basePath : string;
  protocol : string;
  host : string;
  ip : option string;
  port : Z;
  maxRetries : Z;
  maxPool : Z;
  timeout : Z;
  proxy : option string;
  proxylist : option (list string);
  redirect : bool;
  randomAgents : option (list string);
  requestByHostname : bool;
  url : string
}.

(** The arguments of [__init__], with their defaults. *)
Record InitArgs : Type := mkArgs {
  a_url : string;
  a_maxPool : Z;
  a_maxRetries : Z;
  a_timeout : Z;
  a_ip : option string;
  a_proxy : option string;
  a_proxylist : option (list string);
  a_redirect : bool;
  a_requestByHostname : bool;
  a_httpmethod : string;
  a_data : option string;
  a_scheme : option string
}.

Definition default_args (u : string) : InitArgs :=
  {| a_url := u; a_maxPool := 1; a_maxRetries := 5; a_timeout := 20;
     a_ip := None; a_proxy := None; a_proxylist := None; a_redirect := false;
     a_requestByHostname := false; a_httpmethod := "get"; a_data := None;
     a_scheme := None |}.

(** Truth value of an optional list: [None] and [[]] are false. *)
Definition truthy_list {A : Type} (o : option (list A)) : bool :=
  match o with Some (_ :: _) => true | _ => false end.

(** The [safe] argument of the call to [quote]: all ASCII punctuation. *)
Definition safe_chars : string :=
  "!" +:+ String "034"%char "#$%&'()*+,-./:;<=>?@[\]^_`{|}~".

(** ["{0}://{1}:{2}/".format(protocol, h, port)] *)
Definition base_url (proto h : string) (p : Z) : string :=
  proto +:+ "://" +:+ h +:+ ":" +:+ str_of_int p +:+ "/".

Section Construction.

(** [socket.gethostbyname]: the address the lookup answers, [None] when it
    raises [socket.gaierror].  Any other way the call can end (the
    UnicodeError Python raises, before any lookup, for a host with an
    empty or over-long label) is not an answer of this oracle: what is
    proved of [init] holds of the constructions whose lookup, when one is
    made, ends in one of these two ways. *)
Variable dns : string -> option string.

(** Lines 50-51: a trailing slash is appended when missing. *)
Definition with_slash (u : string) : string :=
  if endswith_char "/" u then u else u +:+ "/".

(** Lines 53-61: parse, synthesize a scheme when the URL has no [://],
    otherwise check the scheme. *)
Definition parse_target (u : string) (sch : option string) : result Urllib.ParseResult :=
  parsed <- Urllib.urlparse u ;;
  if negb (contains "://" u) then
    Urllib.urlparse (str_of_opt sch +:+ "://" +:+ u)
  else if negb (existsb (String.eqb (Urllib.scheme parsed)) ["https"; "http"]) then
    Err (RequestException ("Unsupported URL scheme: " +:+ Urllib.scheme parsed))
  else Ok parsed.

(** Lines 63-69 *)
Definition make_basePath (p : string) : string :=
  Urllib.quote (if startswith "/" p then drop 1 p else p) safe_chars.

(** Line 71: [netloc.split(":")[0]] *)
Definition host_of (nl : string) : string :=
  match split ":" nl with
  | h :: _ => h
  | [] => EmptyString
  end.

(** Lines 74-82: the value of [self.ip], if it is assigned at all. *)
Definition resolve_ip (a : InitArgs) (h : string) : result (option string) :=
  if truthy_opt (a_ip a) then Ok (a_ip a)
  else if negb (truthy_opt (a_proxy a)) && negb (truthy_list (a_proxylist a)) then
    match dns h with
    | Some addr => Ok (Some addr)
    | None => Err (RequestException "Couldn't resolve DNS")
    end
  else Ok None.

(** Lines 85-92 *)
Definition parse_port (proto nl : string) : result Z :=
  match split ":" nl !! 1%nat with
  | None => Ok (if String.eqb proto "https" then 443 else 80)
  | Some seg =>
      match int seg with
      | Some n => Ok n
      | None => Err (RequestException ("Invalid port number: " +:+ seg))
      end
  end.

(** Lines 94-101 *)
Definition host_header (proto h : string) (p : Z) : string :=
  if (String.eqb proto "https" && negb (p =? 443)) ||
     (String.eqb proto "http" && negb (p =? 80))
  then h +:+ ":" +:+ str_of_int p
  else h.

(** [Requester.__init__] *)
Definition init (a : InitArgs) : result Requester :=
  parsed <- parse_target (with_slash (a_url a)) (a_scheme a) ;;
  let bp := make_basePath (Urllib.path parsed) in
  let proto := Urllib.scheme parsed in
  let h := host_of (Urllib.netloc parsed) in
  ipv <- resolve_ip a h ;;
  p <- parse_port proto (Urllib.netloc parsed) ;;
  let hdrs : gmap string (option string) := {[ "Host" := Some (host_header proto h p) ]} in
  target <- (if a_requestByHostname a then Ok h
             else match ipv with
                  | Some addr => Ok addr
                  | None => Err (AttributeError "ip")
                  end) ;;
  Ok {| httpmethod := a_httpmethod a; data := a_data a; headers := hdrs;
        basePath := bp; protocol := proto; host := h; ip := ipv; port := p;
        maxRetries := a_maxRetries a; maxPool := a_maxPool a;
        timeout := a_timeout a; proxy := a_proxy a;
        proxylist := a_proxylist a; redirect := a_redirect a;
        randomAgents := None; requestByHostname := a_requestByHostname a;
        url := base_url proto target p |}.

End Construction.

(** [Requester.setHeader]: the key is stripped; the value is stripped
    unless it is empty or [None]. *)
Definition setHeader (self : Requester) (key : string) (value : option string) : Requester :=
  let v := if truthy_opt value then strip <$> value else value in
  mkRequester (httpmethod self) (data self) (<[strip key := v]> (headers self))
    (basePath self) (protocol self) (host self) (ip self) (port self)
    (maxRetries self) (maxPool self) (timeout self) (proxy self)
    (proxylist self) (redirect self) (randomAgents self)
    (requestByHostname self) (url self).

(** [Requester.setRandomAgents] and [Requester.unsetRandomAgents] *)
Definition setRandomAgents (self : Requester) (agents : list string) : Requester :=
  mkRequester (httpmethod self) (data self) (headers self)
    (basePath self) (protocol self) (host self) (ip self) (port self)
    (maxRetries self) (maxPool self) (timeout self) (proxy self)
    (proxylist self) (redirect self) (Some agents)
    (requestByHostname self) (url self).

Definition unsetRandomAgents (self : Requester) : Requester :=
  mkRequester (httpmethod self) (data self) (headers self)
    (basePath self) (protocol self) (host self) (ip self) (port self)
    (maxRetries self) (maxPool self) (timeout self) (proxy self)
    (proxylist self) (redirect self) None
    (requestByHostname self) (url self).

(** ** The transport and its failures *)

(** The exception classes named by [request].  All but the last three
    are classes of [requests.exceptions]; [IncompleteRead] is
    [http.client.IncompleteRead], [socket_timeout] is [socket.timeout],
    and [Exception] stands for any exception outside the others. *)
Inductive exn : Type :=
| SSLError | TooManyRedirects | ProxyError | ConnectionError
| InvalidURL | InvalidProxyURL | ConnectTimeout | ReadTimeout | Timeout
| IncompleteRead | socket_timeout | Exception.

#[global] Instance exn_eq_dec : EqDecision exn.
Proof. solve_decision. Defined.

(** A class with its ancestors among the classes above, as the requests
    library declares them in [requests/exceptions.py] (the package under
    [thirdparty/]): [SSLError] and [ProxyError] derive from
    [ConnectionError], [ConnectTimeout] from [ConnectionError] and
    [Timeout], [ReadTimeout] from [Timeout], [InvalidProxyURL] from
    [InvalidURL]. *)
Definition ancestors (e : exn) : list exn :=
  match e with
  | SSLError => [SSLError; ConnectionError; Exception]
  | ProxyError => [ProxyError; ConnectionError; Exception]
  | ConnectTimeout => [ConnectTimeout; ConnectionError; Timeout; Exception]
  | ReadTimeout => [ReadTimeout; Timeout; Exception]
  | InvalidProxyURL => [InvalidProxyURL; InvalidURL; Exception]
  | Exception => [Exception]
  | c => [c; Exception]
  end.

Definition isinstance (e c : exn) : bool := bool_decide (c ∈ ancestors e).

(** The [except] clauses of [request], in source order. *)
Inductive clause : Type :=
| OnSSL | OnRedirects | OnProxy | OnConnection
| OnInvalidURL | OnInvalidProxyURL | OnTimeout | OnOther.

#[global] Instance clause_eq_dec : EqDecision clause.
Proof. solve_decision. Defined.

Definition except_clauses : list (list exn * clause) :=
  [ ([SSLError], OnSSL);
    ([TooManyRedirects], OnRedirects);
    ([ProxyError], OnProxy);
    ([ConnectionError], OnConnection);
    ([InvalidURL], OnInvalidURL);
    ([InvalidProxyURL], OnInvalidProxyURL);
    ([ConnectTimeout; ReadTimeout; Timeout; IncompleteRead; socket_timeout], OnTimeout);
    ([Exception], OnOther) ].

(** The first clause one of whose classes the exception is an instance of. *)
Fixpoint first_match (e : exn) (cs : list (list exn * clause)) : clause :=
  match cs with
  | [] => OnOther
  | (classes, c) :: cs' => if existsb (isinstance e) classes then c else first_match e cs'
  end.

Definition caught_by (e : exn) : clause := first_match e except_clauses.

(** What [session.request] returns. *)
Record RawResponse : Type := mkRaw {
  status_code : Z;
  raw_reason : string;
  raw_headers : list (string * string);
  content : string
}.

(** Modelled from the spec: the [Response] class of [lib/connection/response.py]
    is not among the sources.  It "wraps one transport exchange into
    {statusCode, reasonPhrase, headers, bodyBytes}". *)
Record Response : Type := mkResponse {
  status : Z;
  reason : string;
  response_headers : list (string * string);
  body : string
}.

(** The arguments of one call of [session.request]. *)
Record Exchange : Type := mkExchange {
  x_method : string;
  x_url : string;
  x_data : option string;
  x_proxies : option (gmap string string);
  x_allow_redirects : bool;
  x_headers : gmap string (option string);
  x_timeout : Z;
  x_verify : bool
}.

Inductive outcome : Type :=
| Returns (r : RawResponse)
| Raises (e : exn).

(** How a call of [request] ends. *)
Inductive completion : Type :=
| Returned (r : option Response)
| Raised (e : pyerr).

(** One entry of the log of physical attempts: the local [proxy] as the
    attempt used it, and what was handed to the transport. *)
Record Attempt : Type := mkAttempt {
  used_proxy : option string;
  exchange : Exchange
}.

(** The state of the loop of [request]: the object, the locals [proxy],
    [result] and [error], the number of random draws made so far and the
    attempts made so far (oldest first). *)
Record Frame : Type := mkFrame {
  self : Requester;
  proxy_v : option string;
  result_v : option Response;
  error_v : option string;
  draws : nat;
  log : list Attempt
}.

Definition set_url (u : string) (r : Requester) : Requester :=
  mkRequester (httpmethod r) (data r) (headers r)
    (basePath r) (protocol r) (host r) (ip r) (port r)
    (maxRetries r) (maxPool r) (timeout r) (proxy r)
    (proxylist r) (redirect r) (randomAgents r)
    (requestByHostname r) u.

Definition set_headers (h : gmap string (option string)) (r : Requester) : Requester :=
  mkRequester (httpmethod r) (data r) h
    (basePath r) (protocol r) (host r) (ip r) (port r)
    (maxRetries r) (maxPool r) (timeout r) (proxy r)
    (proxylist r) (redirect r) (randomAgents r)
    (requestByHostname r) (url r).

Definition proxy_prefixes : list string :=
  ["http://"; "https://"; "socks5://"; "socks5h://"; "socks4://"; "socks4a://"].

(** Lines 141-144 *)
Definition with_scheme (p : string) : string :=
  if existsb (fun pre => startswith pre p) proxy_prefixes then p else "http://" +:+ p.

(** Lines 146-151 *)
Definition proxies_for (p : string) : gmap string string :=
  if startswith "http:" p then {[ "http" := p; "https" := p ]}
  else if startswith "https:" p then {[ "https" := p ]}
  else {[ "https" := p; "http" := p ]}.

(** Lines 140-153: the local [proxy] after normalization, and [proxies]. *)
Definition proxy_settings (pv : option string) : option string * option (gmap string string) :=
  match pv with
  | Some p =>
      if truthy p then (Some (with_scheme p), Some (proxies_for (with_scheme p)))
      else (pv, None)
  | None => (None, None)
  end.

(** The message set by an [except] clause; the TLS clause sets none. *)
Definition failure_message (r : Requester) (pv : option string) (u : string) (c : clause)
  : option string :=
  match c with
  | OnSSL => None
  | OnRedirects => Some ("Too many redirects: " +:+ u)
  | OnProxy => Some ("Error with the proxy: " +:+ str_of_opt pv)
  | OnConnection => Some ("Cannot connect to: " +:+ host r +:+ ":" +:+ str_of_int (port r))
  | OnInvalidURL => Some ("Invalid URL: " +:+ u)
  | OnInvalidProxyURL => Some ("Invalid proxy URL: " +:+ str_of_opt pv)
  | OnTimeout => Some ("Request timeout: " +:+ u)
  | OnOther => Some ("There was a problem in the request to: " +:+ u)
  end.

(** The frame in which the loop of [request] starts (lines 129-130). *)
Definition start_frame (r : Requester) (pinned : option string) : Frame :=
  mkFrame r pinned None None 0%nat [].

Section Request.

(** [session.request]: the outcome of the [i]-th attempt of the call. *)
Variable transport : nat -> Exchange -> outcome.
(** The random source: the [k]-th draw of the call. *)
Variable rnd : nat -> nat.

(** [random.choice] on a non-empty list [x :: xs], at draw [k]. *)
Definition choice (k : nat) (x : string) (xs : list string) : string :=
  nth (rnd k mod S (length xs)) (x :: xs) x.

(** Lines 134-138 *)
Definition select_proxy (r : Requester) (pv : option string) (k : nat)
  : option string * nat :=
  if negb (truthy_opt pv) then
    match proxylist r with
    | Some (p :: ps) => (Some (choice k p ps), S k)
    | _ => if truthy_opt (proxy r) then (proxy r, k) else (pv, k)
    end
  else (pv, k).

(** Lines 157-158 *)
Definition pick_agent (r : Requester) (k : nat) : Requester * nat :=
  match randomAgents r with
  | Some (a :: agents) =>
      (set_headers (<["User-Agent" := Some (choice k a agents)]> (headers r)) r, S k)
  | _ => (r, k)
  end.

(** Lines 134-169, up to the call of the transport: the frame with the
    updated locals and headers, and the exchange to perform. *)
Definition prepare (path : string) (f : Frame) : Frame * Exchange :=
  let '(pv, k) := select_proxy (self f) (proxy_v f) (draws f) in
  let '(pv, proxies) := proxy_settings pv in
  let u := url (self f) +:+ basePath (self f) +:+ path in
  let '(r, k) := pick_agent (self f) k in
  let x := mkExchange (httpmethod r) u (data r) proxies (redirect r)
                      (headers r) (timeout r) false in
  (mkFrame r pv (result_v f) (error_v f) k (log f ++ [mkAttempt pv x]), x).

(** Lines 171-209: what the outcome of the exchange does to the frame;
    the boolean tells whether the loop is left ([break]). *)
Definition settle (f : Frame) (x : Exchange) (o : outcome) : Frame * bool :=
  match o with
  | Returns raw =>
      let resp := mkResponse (status_code raw) (raw_reason raw)
                             (raw_headers raw) (content raw) in
      (mkFrame (self f) (proxy_v f) (Some resp) (error_v f) (draws f) (log f), true)
  | Raises e =>
      match caught_by e with
      | OnSSL =>
          let r := self f in
          (mkFrame (set_url (base_url (protocol r) (host r) (port r)) r)
                   (proxy_v f) (result_v f) (error_v f) (draws f) (log f), false)
      | c =>
          (mkFrame (self f) (proxy_v f) (result_v f)
                   (failure_message (self f) (proxy_v f) (x_url x) c)
                   (draws f) (log f), false)
      end
  end.

(** One iteration of the loop, the [i]-th. *)
Definition attempt (path : string) (i : nat) (f : Frame) : Frame * bool :=
  let '(f1, x) := prepare path f in settle f1 x (transport i x).

(** [for i in range(...)], with [n] iterations left. *)
Fixpoint loop (path : string) (n i : nat) (f : Frame) : Frame :=
  match n with
  | O => f
  | S n' =>
      let '(f', stop) := attempt path i f in
      if stop then f' else loop path n' (S i) f'
  end.

(** The frame when the loop of [request] is left. *)
Definition run (r : Requester) (path : string) (pinned : option string) : Frame :=
  loop path (Z.to_nat (maxRetries r)) 0%nat (start_frame r pinned).

(** Lines 211-214 *)
Definition finish (f : Frame) : completion :=
  if truthy_opt (error_v f) then
    Raised (RequestException (str_of_opt (error_v f)))
  else Returned (result_v f).

(** [Requester.request(path, proxy=pinned)] *)
Definition request (r : Requester) (path : string) (pinned : option string) : completion :=
  finish (run r path pinned).

End Request.


(** ** Several calls in a row *)

(** The environment and the arguments of one call of [request]. *)
Record Call : Type := mkCall {
  c_transport : nat -> Exchange -> outcome;
  c_rnd : nat -> nat;
  c_path : string;
  c_pinned : option string
}.

(** The object after the calls of a list, made one after the other. *)
Fixpoint after_calls (r : Requester) (calls : list Call) : Requester :=
  match calls with
  | [] => r
  | c :: calls' =>
      after_calls (self (run (c_transport c) (c_rnd c) r (c_path c) (c_pinned c))) calls'
  end.

(** ** Predicates used in the statements *)

(** [r'] is [r] except for its base URL and its headers, the two fields a
    call of [request] may assign. *)
Definition same_config (r r' : Requester) : Prop :=
  set_url (url r') (set_headers (headers r') r) = r'.

(** No attempt with an index in [[lo, hi)] succeeds. *)
Definition fails_in (transport : nat -> Exchange -> outcome) (lo hi : nat) : Prop :=
  forall i x, (lo <= i < hi)%nat -> exists e, transport i x = Raises e.

(** The entries of a log agree on the proxy from the first one that has
    one. *)
Definition persistent (l : list Attempt) : Prop :=
  forall i j ai aj, (i <= j)%nat -> l !! i = Some ai -> l !! j = Some aj ->
    truthy_opt (used_proxy ai) = true ->
    used_proxy aj = used_proxy ai /\ x_proxies (exchange aj) = x_proxies (exchange ai).

(** The last entry of the log records the local [proxy]; when that is
    set, it carries a scheme and the entry has its [proxies]. *)
Definition proxy_recorded (f : Frame) : Prop :=
  forall a, last (log f) = Some a ->
    used_proxy a = proxy_v f /\
    (truthy_opt (proxy_v f) = true ->
     exists p, proxy_v f = Some p /\ truthy p = true /\ with_scheme p = p /\
               x_proxies (exchange a) = Some (proxies_for p)).

(** ** Example data *)

(** Concrete environments and arguments used by the examples below. *)
Definition dns_up : string -> option string := fun _ => Some "10.0.0.1".

Definition dns_down : string -> option string := fun _ => None.

Definition args_with_scheme (u : string) (sch : option string) (addr : option string)
  : InitArgs :=
  mkArgs u 1 5 20 addr None None false false "get" None sch.

Definition args_with_proxy (u pr : string) : InitArgs :=
  mkArgs u 1 5 20 None (Some pr) None false false "get" None (Some "http").

(** Concrete objects used by the examples on [request]: what
    [Requester("http://host/", ip="10.0.0.1", maxRetries=n)] builds. *)
Definition requester_with_retries (n : Z) : Requester :=
  mkRequester "get" None {[ "Host" := Some "host" ]} "" "http" "host"
    (Some "10.0.0.1") 80 n 1 20 None None false None false "http://10.0.0.1:80/".

Definition ok_response : RawResponse := mkRaw 200 "OK" [("Server", "nginx")] "hello".

Definition always (e : exn) : nat -> Exchange -> outcome := fun _ _ => Raises e.

(** Fails with a connection error on the first attempt, succeeds afterwards. *)
Definition fail_then_succeed : nat -> Exchange -> outcome :=
  fun i _ => match i with O => Raises ConnectionError | _ => Returns ok_response end.

Definition first_draw : nat -> nat := fun _ => 0%nat.

Definition timeout_connection_tls : nat -> Exchange -> outcome :=
  fun i _ => match i with
             | O => Raises ReadTimeout
             | S O => Raises ConnectionError
             | _ => Raises SSLError
             end.

Definition tls_on_first : nat -> Exchange -> outcome :=
  fun i _ => match i with O => Raises SSLError | _ => Returns ok_response end.

(** What [Requester("https://example.com:8443/app")] builds when the name
    resolves to 10.0.0.1. *)
Definition requester_https : Requester :=
  mkRequester "get" None {[ "Host" := Some "example.com:8443" ]} "app/" "https"
    "example.com" (Some "10.0.0.1") 8443 5 1 20 None None false None false
    "https://10.0.0.1:8443/".

(** An object with a proxy list, and a call of two attempts on it. *)
Definition requester_with_proxylist : Requester :=
  mkRequester "get" None {[ "Host" := Some "host" ]} "" "http" "host" None 80 2 1 20
    None (Some ["127.0.0.1:8080"; "https://proxy.example:3128"]) false None true
    "http://host:80/".

(** ** Further predicates and example data *)

(** The characters [quote] keeps when called with [safe_chars]: letters,
    digits and ASCII punctuation. *)
Definition is_safe (c : ascii) : bool :=
  is_alpha c || is_digit c || has_char c safe_chars.

(** [Response(response.status_code, response.reason, response.headers,
    response.content)] (lines 171-176). *)
Definition capture (raw : RawResponse) : Response :=
  mkResponse (status_code raw) (raw_reason raw) (raw_headers raw) (content raw).

(** [a] with another URL. *)
Definition with_url (u : string) (a : InitArgs) : InitArgs :=
  mkArgs u (a_maxPool a) (a_maxRetries a) (a_timeout a) (a_ip a) (a_proxy a)
    (a_proxylist a) (a_redirect a) (a_requestByHostname a) (a_httpmethod a)
    (a_data a) (a_scheme a).

(** The exchanges of the calls of a list, made one after the other on the
    object as the calls before left it, in the order they are made. *)
Fixpoint calls_log (r : Requester) (calls : list Call) : list Attempt :=
  match calls with
  | [] => []
  | c :: calls' =>
      log (run (c_transport c) (c_rnd c) r (c_path c) (c_pinned c)) ++
      calls_log (self (run (c_transport c) (c_rnd c) r (c_path c) (c_pinned c))) calls'
  end.

(** An object with random agents set. *)
Definition requester_with_agents : Requester :=
  setRandomAgents (requester_with_retries 2) ["agent-one"; "agent-two"].

(** * Properties *)

Lemma bind_Ok_inv {A B : Type} (m : result A) (k : A -> result B) (b : B) :
  bind m k = Ok b -> exists a, m = Ok a /\ k a = Ok b.
Proof. destruct m as [a|e]; simpl; intros H; [eauto | discriminate]. Qed.

(** ** Strings *)

Lemma append_nil_r (s : string) : s +:+ "" = s.
Proof. induction s as [|c s IH]; simpl; [reflexivity | now f_equal]. Qed.

Lemma append_same_prefix (s t : string) : s +:+ t = s -> t = "".
Proof.
  induction s as [|c s IH]; simpl; intros H; [exact H |].
  injection H as H. auto.
Qed.

(** A character that [quote] is told to keep is kept as it is: letters,
    digits and the punctuation of [safe_chars]. *)
Lemma quote_char_safe (c : ascii) :
  is_alpha c || is_digit c || has_char c safe_chars = true ->
  Urllib.quote_char safe_chars c = String c "".
Proof.
  destruct c as [[] [] [] [] [] [] [] []]; vm_compute; intros H;
    first [reflexivity | discriminate H].
Qed.

(** Every other character becomes a percent escape. *)
Lemma quote_char_unsafe (c : ascii) :
  is_alpha c || is_digit c || has_char c safe_chars = false ->
  startswith "%" (Urllib.quote_char safe_chars c) = true.
Proof.
  destruct c as [[] [] [] [] [] [] [] []]; vm_compute; intros H;
    first [reflexivity | discriminate H].
Qed.

Lemma startswith_cons (a b : ascii) (p s : string) :
  startswith (String a p) (String b s) = if Ascii.eqb a b then startswith p s else false.
Proof. reflexivity. Qed.

(** Quoting neither adds nor removes a leading slash. *)
Lemma quote_leading_slash (s : string) :
  startswith "/" (Urllib.quote s safe_chars) = startswith "/" s.
Proof.
  destruct s as [|c s]; [reflexivity |].
  cbn [Urllib.quote].
  destruct (is_alpha c || is_digit c || has_char c safe_chars) eqn:E.
  - rewrite (quote_char_safe c E). reflexivity.
  - pose proof (quote_char_unsafe c E) as H.
    destruct (Urllib.quote_char safe_chars c) as [|d q]; [discriminate H |].
    rewrite startswith_cons in H.
    destruct (Ascii.eqb_spec "%" d) as [<-|]; [| discriminate H].
    change (String "%" q +:+ Urllib.quote s safe_chars)
      with (String "%" (q +:+ Urllib.quote s safe_chars)).
    rewrite !startswith_cons.
    destruct (Ascii.eqb_spec "/" c) as [<-|]; [| reflexivity].
    vm_compute in E. discriminate E.
Qed.

(** Stripping one leading slash leaves one exactly when there were two. *)
Lemma strip_one_slash (p : string) :
  startswith "/" (if startswith "/" p then drop 1 p else p) = startswith "//" p.
Proof.
  destruct p as [|c p]; [reflexivity |].
  destruct (Ascii.eqb_spec "/" c) as [<-|Hne].
  - destruct p; reflexivity.
  - apply Ascii.eqb_neq in Hne.
    rewrite !startswith_cons, Hne, startswith_cons, Hne. reflexivity.
Qed.

(** ** Construction *)

Section ConstructionFacts.

Variable dns : string -> option string.

(** What a successful construction went through, step by step. *)
Lemma init_Ok_inv (a : InitArgs) (r : Requester) :
  init dns a = Ok r ->
  exists parsed ipv p target,
    parse_target (with_slash (a_url a)) (a_scheme a) = Ok parsed /\
    resolve_ip dns a (host_of (Urllib.netloc parsed)) = Ok ipv /\
    parse_port (Urllib.scheme parsed) (Urllib.netloc parsed) = Ok p /\
    (if a_requestByHostname a then target = host_of (Urllib.netloc parsed)
     else ipv = Some target) /\
    r = {| httpmethod := a_httpmethod a; data := a_data a;
           headers := {[ "Host" := Some (host_header (Urllib.scheme parsed)
                                           (host_of (Urllib.netloc parsed)) p) ]};
           basePath := make_basePath (Urllib.path parsed);
           protocol := Urllib.scheme parsed;
           host := host_of (Urllib.netloc parsed); ip := ipv; port := p;
           maxRetries := a_maxRetries a; maxPool := a_maxPool a;
           timeout := a_timeout a; proxy := a_proxy a;
           proxylist := a_proxylist a; redirect := a_redirect a;
           randomAgents := None; requestByHostname := a_requestByHostname a;
           url := base_url (Urllib.scheme parsed) target p |}.
Proof.
  unfold init. intros H.
  apply bind_Ok_inv in H as (parsed & Hparse & H).
  apply bind_Ok_inv in H as (ipv & Hip & H).
  apply bind_Ok_inv in H as (p & Hport & H).
  apply bind_Ok_inv in H as (target & Htarget & H).
  exists parsed, ipv, p, target. repeat split; try assumption.
  - destruct (a_requestByHostname a).
    + now injection Htarget as <-.
    + destruct ipv as [addr|]; [now injection Htarget as <- | discriminate].
  - now injection H as <-.
Qed.

(** A URL without [://] skips the scheme check altogether. *)
Lemma parse_target_no_delimiter (u : string) (sch : option string) :
  contains "://" u = false ->
  parse_target u sch =
    (_ <- Urllib.urlparse u ;; Urllib.urlparse (str_of_opt sch +:+ "://" +:+ u)).
Proof. intros H. unfold parse_target. now rewrite H. Qed.

Lemma resolve_ip_not_scheme_error (a : InitArgs) (h s : string) :
  resolve_ip dns a h <> Err (RequestException ("Unsupported URL scheme: " +:+ s)).
Proof.
  unfold resolve_ip.
  destruct (truthy_opt (a_ip a)); [discriminate |].
  destruct (negb _ && negb _); [| discriminate].
  destruct (dns h); discriminate.
Qed.

Lemma parse_port_not_scheme_error (proto nl s : string) :
  parse_port proto nl <> Err (RequestException ("Unsupported URL scheme: " +:+ s)).
Proof.
  unfold parse_port.
  destruct (split ":" nl !! 1%nat) as [seg|]; [| discriminate].
  destruct (int seg); discriminate.
Qed.

Lemma urlparse_not_request_exception (u m : string) :
  Urllib.urlparse u <> Err (RequestException m).
Proof.
  assert (Hrest : forall sch v, Urllib.split_rest sch v <> Err (RequestException m)).
  { intros sch v. unfold Urllib.split_rest.
    destruct (startswith "//" v); simpl.
    - destruct (Urllib.splitnetloc v) as [n w].
      destruct (_ || _); simpl; [discriminate |].
      destruct (if has_char "#" w then _ else _) as [w1 frag].
      destruct (if has_char "?" w1 then _ else _). discriminate.
    - destruct (if has_char "#" v then _ else _) as [w1 frag].
      destruct (if has_char "?" w1 then _ else _). discriminate. }
  assert (Hsplit : Urllib.urlsplit u <> Err (RequestException m)).
  { unfold Urllib.urlsplit.
    destruct (find ":" u) as [[|i]|]; try apply Hrest.
    destruct (String.eqb _ "http"); [apply Hrest |].
    destruct (forallb_str _ _); [| apply Hrest].
    destruct (_ || _); apply Hrest. }
  unfold Urllib.urlparse.
  destruct (Urllib.urlsplit u) as [r|e] eqn:E; simpl.
  - destruct (_ && _); [| discriminate].
    destruct (Urllib.splitparams _). discriminate.
  - intros [= ->]. now apply Hsplit.
Qed.

End ConstructionFacts.

(** C4 (amended).  The port segment is validated after the ip has been
    resolved: when the segment is present and [int] rejects it,
    construction fails with "Invalid port number: <segment>" provided the
    ip step passed; with no override ip and no proxy this means that the
    host name resolved, and when it does not resolve the failure is
    "Couldn't resolve DNS" instead. *)
Theorem invalid_port_rejected (dns : string -> option string) (a : InitArgs)
    (parsed : Urllib.ParseResult) (seg : string) :
  parse_target (with_slash (a_url a)) (a_scheme a) = Ok parsed ->
  split ":" (Urllib.netloc parsed) !! 1%nat = Some seg ->
  int seg = None ->
  (forall ipv, resolve_ip dns a (host_of (Urllib.netloc parsed)) = Ok ipv ->
     init dns a = Err (RequestException ("Invalid port number: " +:+ seg))) /\
  (truthy_opt (a_ip a) = false ->
   truthy_opt (a_proxy a) = false -> truthy_list (a_proxylist a) = false ->
   (forall addr, dns (host_of (Urllib.netloc parsed)) = Some addr ->
      init dns a = Err (RequestException ("Invalid port number: " +:+ seg))) /\
   (dns (host_of (Urllib.netloc parsed)) = None ->
      init dns a = Err (RequestException "Couldn't resolve DNS"))) /\
  (truthy_opt (a_ip a) = true \/
   truthy_opt (a_proxy a) || truthy_list (a_proxylist a) = true ->
   init dns a = Err (RequestException ("Invalid port number: " +:+ seg))).
Proof.
  intros Hparse Hseg Hint.
  assert (Hport : parse_port (Urllib.scheme parsed) (Urllib.netloc parsed)
                  = Err (RequestException ("Invalid port number: " +:+ seg))).
  { unfold parse_port. now rewrite Hseg, Hint. }
  assert (Hgo : forall ipv, resolve_ip dns a (host_of (Urllib.netloc parsed)) = Ok ipv ->
                init dns a = Err (RequestException ("Invalid port number: " +:+ seg))).
  { intros ipv Hip. unfold init. rewrite Hparse. cbn [bind].
    rewrite Hip. cbn [bind]. rewrite Hport. reflexivity. }
  split; [exact Hgo |]. split.
  - intros Hnoip Hnoproxy Hnolist. split.
    + intros addr Hdns. apply (Hgo (Some addr)).
      unfold resolve_ip. now rewrite Hnoip, Hnoproxy, Hnolist, Hdns.
    + intros Hdns. unfold init. rewrite Hparse. cbn [bind].
      unfold resolve_ip. now rewrite Hnoip, Hnoproxy, Hnolist, Hdns.
  - intros Hgiven. unfold resolve_ip in Hgo.
    destruct (truthy_opt (a_ip a)); [now apply (Hgo (a_ip a)) |].
    destruct Hgiven as [Hip | Hpx]; [discriminate Hip |].
    apply (Hgo None).
    destruct (truthy_opt (a_proxy a)), (truthy_list (a_proxylist a));
      try reflexivity; discriminate Hpx.
Qed.

(** The example of the specification, when the name resolves. *)
Lemma invalid_port_rejected_witness :
  init dns_up (default_args "http://host:abc/")
  = Err (RequestException "Invalid port number: abc").
Proof.
  refine (proj1 (invalid_port_rejected dns_up (default_args "http://host:abc/")
                   (Urllib.mkParse "http" "host:abc" "/" "" "" "") "abc" _ _ _)
                (Some "10.0.0.1") _); reflexivity.
Defined.

(** C4, as stated, fails: with no proxy and a host name that does not
    resolve, "http://host:abc/" is rejected for DNS, not for its port. *)
Lemma invalid_port_masked_by_dns :
  init dns_down (default_args "http://host:abc/")
  = Err (RequestException "Couldn't resolve DNS").
Proof. reflexivity. Qed.

(** A port segment that starts with the separator U+001C is no integer to
    [int], although [str.strip] would remove the separator. *)
Example port_with_separator_rejected :
  strip (String "028" "80") = "80" /\
  int (String "028" "80") = None /\
  init dns_up (default_args ("http://host:" +:+ String "028" "80/"))
  = Err (RequestException ("Invalid port number: " +:+ String "028" "80")).
Proof. repeat split. Qed.

(** How far the missing check reaches.  For a URL without [://] the scheme
    is synthesized from the default scheme (an absent one is rendered as
    "None") and the scheme check, which sits in the [elif] branch, is not
    applied to the result: construction never fails with the
    unsupported-scheme error, whatever the default scheme. *)
Theorem default_scheme_not_checked (dns : string -> option string) (a : InitArgs) :
  contains "://" (with_slash (a_url a)) = false ->
  parse_target (with_slash (a_url a)) (a_scheme a)
  = (_ <- Urllib.urlparse (with_slash (a_url a)) ;;
     Urllib.urlparse (str_of_opt (a_scheme a) +:+ "://" +:+ with_slash (a_url a))) /\
  forall s, init dns a <> Err (RequestException ("Unsupported URL scheme: " +:+ s)).
Proof.
  intros Hno. split; [now apply parse_target_no_delimiter |].
  intros s. unfold init.
  rewrite (parse_target_no_delimiter _ _ Hno).
  destruct (Urllib.urlparse (with_slash (a_url a))) as [p0|e0] eqn:E0; cbn [bind].
  2:{ intros [= ->]. now apply (urlparse_not_request_exception _ _ E0). }
  destruct (Urllib.urlparse (_ +:+ _)) as [parsed|e1] eqn:E1; cbn [bind].
  2:{ intros [= ->]. now apply (urlparse_not_request_exception _ _ E1). }
  destruct (resolve_ip dns a _) as [ipv|e2] eqn:E2; cbn [bind].
  2:{ intros [= ->]. now apply (resolve_ip_not_scheme_error _ _ _ _ E2). }
  destruct (parse_port _ _) as [p|e3] eqn:E3; cbn [bind].
  2:{ intros [= ->]. now apply (parse_port_not_scheme_error _ _ _ E3). }
  destruct (a_requestByHostname a); cbn [bind]; [discriminate |].
  destruct ipv; cbn [bind]; discriminate.
Qed.

Lemma default_scheme_not_checked_witness :
  parse_target (with_slash "example.com") None
  = Ok (Urllib.mkParse "none" "example.com" "/" "" "" "").
Proof.
  exact (eq_trans
           (proj1 (default_scheme_not_checked dns_up
                     (args_with_scheme "example.com" None None) eq_refl))
           eq_refl).
Defined.

(** C5 at its failing inputs.  The comment at line 55 says "set http by
    default" and lines 60-61 reject a scheme other than http and https,
    but a synthesized scheme is never checked: "example.com" with the
    default scheme "ftp" is accepted with protocol "ftp", and with no
    default scheme at all it is accepted with protocol "none"; the same
    scheme written in the URL is rejected. *)
Theorem default_scheme_escapes_check :
  (exists r, init dns_up (args_with_scheme "example.com" (Some "ftp") None) = Ok r /\
             protocol r = "ftp" /\ url r = "ftp://10.0.0.1:80/") /\
  (exists r, init dns_up (default_args "example.com") = Ok r /\
             protocol r = "none" /\ url r = "none://10.0.0.1:80/") /\
  init dns_up (args_with_scheme "ftp://example.com" (Some "ftp") None)
  = Err (RequestException "Unsupported URL scheme: ftp").
Proof.
  split; [| split].
  - eexists. split; [vm_compute; reflexivity | split; reflexivity].
  - eexists. split; [vm_compute; reflexivity | split; reflexivity].
  - reflexivity.
Qed.

(** C9 (amended).  After construction, [basePath] is the path of the
    parsed URL with one leading slash removed (when there is one) and then
    percent-encoded; letters, digits and the punctuation of the safe set
    are left as they are.  It starts with a slash exactly when the path
    started with two. *)
Theorem basePath_leading_slash (dns : string -> option string) (a : InitArgs)
    (r : Requester) :
  init dns a = Ok r ->
  exists parsed,
    parse_target (with_slash (a_url a)) (a_scheme a) = Ok parsed /\
    basePath r = Urllib.quote (if startswith "/" (Urllib.path parsed)
                               then drop 1 (Urllib.path parsed)
                               else Urllib.path parsed) safe_chars /\
    startswith "/" (basePath r) = startswith "//" (Urllib.path parsed) /\
    (forall c, is_alpha c || is_digit c || has_char c safe_chars = true ->
               Urllib.quote_char safe_chars c = String c "").
Proof.
  intros H. apply init_Ok_inv in H as (parsed & ipv & p & target & Hp & _ & _ & _ & ->).
  exists parsed. cbn [basePath]. unfold make_basePath.
  split; [exact Hp |]. split; [reflexivity |]. split.
  - rewrite quote_leading_slash. apply strip_one_slash.
  - apply quote_char_safe.
Qed.

Lemma basePath_leading_slash_witness :
  exists r, init dns_up (default_args "http://host/a b/c") = Ok r /\
            basePath r = "a%20b/c/" /\
            startswith "/" (basePath r) = false.
Proof.
  eexists. split; [vm_compute; reflexivity |]. split; [reflexivity |].
  destruct (basePath_leading_slash dns_up (default_args "http://host/a b/c") _ eq_refl)
    as (parsed & Hp & _ & Hs & _).
  vm_compute in Hp. injection Hp as <-. exact Hs.
Defined.

(** C9, as stated, fails: a path that begins with two slashes keeps one. *)
Lemma basePath_double_slash :
  exists r, init dns_up (default_args "http://host//foo") = Ok r /\
            basePath r = "/foo/" /\
            startswith "/" (basePath r) = true.
Proof. eexists. split; [vm_compute; reflexivity | split; reflexivity]. Qed.

(** C10 (amended).  With a proxy or a proxy list configured, no override
    ip and [requestByHostname] false, [self.ip] is never assigned (the
    resolver is not consulted) and construction never succeeds: once the
    scheme and the port have passed their checks it fails with the
    attribute error, and when one of them fails it fails with the error of
    that check.  So a successful construction had an ip given, or
    [requestByHostname] true, or no proxy and no proxy list. *)
Theorem proxy_without_ip (dns : string -> option string) (a : InitArgs) :
  (truthy_opt (a_proxy a) || truthy_list (a_proxylist a) = true ->
   truthy_opt (a_ip a) = false ->
   a_requestByHostname a = false ->
   (forall dns' h, resolve_ip dns' a h = Ok None) /\
   (forall r, init dns a <> Ok r) /\
   (forall parsed p,
      parse_target (with_slash (a_url a)) (a_scheme a) = Ok parsed ->
      parse_port (Urllib.scheme parsed) (Urllib.netloc parsed) = Ok p ->
      init dns a = Err (AttributeError "ip")) /\
   (forall e, parse_target (with_slash (a_url a)) (a_scheme a) = Err e ->
      init dns a = Err e) /\
   (forall parsed e,
      parse_target (with_slash (a_url a)) (a_scheme a) = Ok parsed ->
      parse_port (Urllib.scheme parsed) (Urllib.netloc parsed) = Err e ->
      init dns a = Err e)) /\
  (forall r, init dns a = Ok r ->
     truthy_opt (a_ip a) = true \/ a_requestByHostname a = true \/
     (truthy_opt (a_proxy a) = false /\ truthy_list (a_proxylist a) = false)).
Proof.
  assert (Hskip : truthy_opt (a_proxy a) || truthy_list (a_proxylist a) = true ->
                  truthy_opt (a_ip a) = false ->
                  forall dns' h, resolve_ip dns' a h = Ok None).
  { intros Hpx Hnoip dns' h. unfold resolve_ip. rewrite Hnoip.
    destruct (truthy_opt (a_proxy a)), (truthy_list (a_proxylist a));
      try reflexivity; discriminate Hpx. }
  assert (Hpre : forall r, init dns a = Ok r ->
     truthy_opt (a_ip a) = true \/ a_requestByHostname a = true \/
     (truthy_opt (a_proxy a) = false /\ truthy_list (a_proxylist a) = false)).
  { intros r H.
    apply init_Ok_inv in H as (parsed & ipv & p & target & _ & Hip & _ & Ht & _).
    destruct (truthy_opt (a_ip a)) eqn:Eip; [now left |].
    destruct (a_requestByHostname a) eqn:Erbh; [now right; left |].
    right; right.
    destruct (truthy_opt (a_proxy a) || truthy_list (a_proxylist a)) eqn:Epx.
    - rewrite (Hskip eq_refl eq_refl) in Hip. injection Hip as <-. discriminate Ht.
    - apply orb_false_elim in Epx. exact Epx. }
  split; [| exact Hpre].
  intros Hpx Hnoip Hrbh. split; [now apply Hskip |].
  split; [| split; [| split]].
  - intros r H. destruct (Hpre r H) as [H1 | [H1 | [H1 H2]]]; try congruence.
    rewrite H1, H2 in Hpx. discriminate Hpx.
  - intros parsed p Hparse Hport. unfold init.
    rewrite Hparse. cbn [bind]. rewrite (Hskip Hpx Hnoip). cbn [bind].
    rewrite Hport. cbn [bind]. rewrite Hrbh. reflexivity.
  - intros e Hparse. unfold init. now rewrite Hparse.
  - intros parsed e Hparse Hport. unfold init.
    rewrite Hparse. cbn [bind]. rewrite (Hskip Hpx Hnoip). cbn [bind].
    now rewrite Hport.
Qed.

Lemma proxy_without_ip_witness :
  init dns_up (args_with_proxy "http://host/" "127.0.0.1:8080")
  = Err (AttributeError "ip").
Proof.
  refine (proj1 (proj2 (proj2 (proj1 (proxy_without_ip dns_up
            (args_with_proxy "http://host/" "127.0.0.1:8080")) _ _ _)))
            (Urllib.mkParse "http" "host" "/" "" "" "") 80 _ _); reflexivity.
Defined.

(** C10, as stated, fails: the scheme and port checks come first, and a
    URL they reject fails with their error, not with the attribute error. *)
Lemma proxy_without_ip_scheme_error_first :
  init dns_up (args_with_proxy "ftp://host/" "127.0.0.1:8080")
  = Err (RequestException "Unsupported URL scheme: ftp").
Proof. reflexivity. Qed.

Example proxy_without_ip_port_error_first :
  init dns_up (args_with_proxy "http://host:abc/" "127.0.0.1:8080")
  = Err (RequestException "Invalid port number: abc").
Proof. reflexivity. Qed.

(** The Host header set by the constructor, by protocol. *)
Lemma host_header_http (h : string) (p : Z) :
  host_header "http" h p = if p =? 80 then h else h +:+ ":" +:+ str_of_int p.
Proof. unfold host_header. simpl. now destruct (p =? 80). Qed.

Lemma host_header_https (h : string) (p : Z) :
  host_header "https" h p = if p =? 443 then h else h +:+ ":" +:+ str_of_int p.
Proof. unfold host_header. simpl. now destruct (p =? 443). Qed.

Lemma host_with_port_differs (h : string) (p : Z) :
  h +:+ ":" +:+ str_of_int p <> h.
Proof. intros H. apply append_same_prefix in H. discriminate H. Qed.

(** For any other protocol the header is the bare host, whatever the port. *)
Lemma host_header_other (proto h : string) (p : Z) :
  proto <> "https" -> proto <> "http" -> host_header proto h p = h.
Proof.
  intros H1 H2. unfold host_header.
  apply String.eqb_neq in H1, H2. now rewrite H1, H2.
Qed.

(** ** The retry loop *)

Lemma same_config_refl (r : Requester) : same_config r r.
Proof. now destruct r. Qed.

Lemma same_config_trans (r1 r2 r3 : Requester) :
  same_config r1 r2 -> same_config r2 r3 -> same_config r1 r3.
Proof. unfold same_config. intros <- <-. reflexivity. Qed.

Lemma same_config_fields (r r' : Requester) :
  same_config r r' ->
  basePath r' = basePath r /\ protocol r' = protocol r /\ host r' = host r /\
  port r' = port r /\ maxRetries r' = maxRetries r /\ proxy r' = proxy r /\
  proxylist r' = proxylist r /\ randomAgents r' = randomAgents r.
Proof. intros <-. repeat split. Qed.

Lemma same_config_set_url (r : Requester) (u : string) : same_config r (set_url u r).
Proof. now destruct r. Qed.

Lemma same_config_set_headers (r : Requester) (h : gmap string (option string)) :
  same_config r (set_headers h r).
Proof. now destruct r. Qed.

Lemma caught_by_ssl (e : exn) : isinstance e SSLError = true -> caught_by e = OnSSL.
Proof. destruct e; vm_compute; congruence. Qed.

Lemma caught_by_ssl_inv (e : exn) : caught_by e = OnSSL -> e = SSLError.
Proof. destruct e; vm_compute; congruence. Qed.

Lemma failure_message_truthy (r : Requester) (pv : option string) (u : string) (c : clause) :
  c <> OnSSL -> truthy_opt (failure_message r pv u c) = true.
Proof. destruct c; intros H; try reflexivity. now destruct H. Qed.

Lemma failure_message_same_config (r r' : Requester) (pv : option string)
    (u : string) (c : clause) :
  same_config r r' -> failure_message r' pv u c = failure_message r pv u c.
Proof. intros <-. now destruct c. Qed.

Section RequestFacts.

Variable transport : nat -> Exchange -> outcome.
Variable rnd : nat -> nat.
Variable path : string.

#[local] Abbreviation prepare := (prepare rnd path).
#[local] Abbreviation attempt := (attempt transport rnd path).
#[local] Abbreviation loop := (loop transport rnd path).

(** *** One attempt *)

Lemma pick_agent_same_config (r : Requester) (k : nat) :
  same_config r (pick_agent rnd r k).1.
Proof.
  unfold pick_agent. destruct (randomAgents r) as [[|a agents]|]; simpl;
    auto using same_config_refl, same_config_set_headers.
Qed.

Lemma pick_agent_url (r : Requester) (k : nat) : url (pick_agent rnd r k).1 = url r.
Proof. unfold pick_agent. now destruct (randomAgents r) as [[|a agents]|]. Qed.

Lemma pick_agent_headers (r : Requester) (k : nat) (key : string) :
  key <> "User-Agent" -> headers (pick_agent rnd r k).1 !! key = headers r !! key.
Proof.
  intros Hkey. unfold pick_agent.
  destruct (randomAgents r) as [[|a agents]|]; simpl; try reflexivity.
  now rewrite lookup_insert_ne.
Qed.

(** The frame and the exchange that [prepare] builds, field by field. *)
Lemma prepare_spec (f : Frame) :
  let sel := select_proxy rnd (self f) (proxy_v f) (draws f) in
  let ps := proxy_settings sel.1 in
  let pa := pick_agent rnd (self f) sel.2 in
  let x := mkExchange (httpmethod pa.1)
             (url (self f) +:+ basePath (self f) +:+ path) (data pa.1) ps.2
             (redirect pa.1) (headers pa.1) (timeout pa.1) false in
  prepare f = (mkFrame pa.1 ps.1 (result_v f) (error_v f) pa.2
                       (log f ++ [mkAttempt ps.1 x]), x).
Proof.
  unfold prepare.
  destruct (select_proxy _ _ _ _) as [pv k]. simpl.
  destruct (proxy_settings pv) as [pv' proxies]. simpl.
  destruct (pick_agent _ _ _) as [r' k']. reflexivity.
Qed.

Lemma prepare_same_config (f : Frame) : same_config (self f) (self (prepare f).1).
Proof. rewrite prepare_spec. simpl. apply pick_agent_same_config. Qed.

Lemma prepare_url (f : Frame) :
  x_url (prepare f).2 = url (self f) +:+ basePath (self f) +:+ path.
Proof. now rewrite prepare_spec. Qed.

Lemma prepare_log (f : Frame) :
  log (prepare f).1
  = log f ++ [mkAttempt (proxy_v (prepare f).1) (prepare f).2].
Proof. now rewrite prepare_spec. Qed.

Lemma prepare_keeps (f : Frame) :
  result_v (prepare f).1 = result_v f /\ error_v (prepare f).1 = error_v f /\
  url (self (prepare f).1) = url (self f).
Proof. rewrite prepare_spec. simpl. auto using pick_agent_url. Qed.

Lemma attempt_unfold (i : nat) (f : Frame) :
  attempt i f = settle (prepare f).1 (prepare f).2 (transport i (prepare f).2).
Proof. unfold attempt. now destruct (prepare f). Qed.

(** What an exception does to the prepared frame. *)
Lemma settle_raises (g : Frame) (x : Exchange) (e : exn) :
  settle g x (Raises e)
  = (match caught_by e with
     | OnSSL => mkFrame (set_url (base_url (protocol (self g)) (host (self g))
                                           (port (self g))) (self g))
                        (proxy_v g) (result_v g) (error_v g) (draws g) (log g)
     | c => mkFrame (self g) (proxy_v g) (result_v g)
                    (failure_message (self g) (proxy_v g) (x_url x) c)
                    (draws g) (log g)
     end, false).
Proof. unfold settle. now destruct (caught_by e). Qed.

Lemma settle_log (g : Frame) (x : Exchange) (o : outcome) :
  log (settle g x o).1 = log g /\ proxy_v (settle g x o).1 = proxy_v g.
Proof.
  destruct o as [raw|e]; [now simpl |].
  rewrite settle_raises. now destruct (caught_by e).
Qed.

Lemma settle_same_config (g : Frame) (x : Exchange) (o : outcome) :
  same_config (self g) (self (settle g x o).1) /\
  headers (self (settle g x o).1) = headers (self g).
Proof.
  destruct o as [raw|e]; [simpl; auto using same_config_refl |].
  rewrite settle_raises.
  destruct (caught_by e); simpl; auto using same_config_refl, same_config_set_url.
Qed.

Lemma attempt_same_config (i : nat) (f : Frame) :
  same_config (self f) (self (attempt i f).1).
Proof.
  rewrite attempt_unfold.
  eapply same_config_trans; [apply prepare_same_config | apply settle_same_config].
Qed.

Lemma attempt_log (i : nat) (f : Frame) :
  log (attempt i f).1 = log f ++ [mkAttempt (proxy_v (attempt i f).1) (prepare f).2].
Proof.
  rewrite attempt_unfold.
  destruct (settle_log (prepare f).1 (prepare f).2 (transport i (prepare f).2))
    as [-> ->].
  apply prepare_log.
Qed.

(** *** The loop *)

(** A property kept by every attempt with an index in [[lo, hi)] is kept by
    a loop that stays within that window. *)
Lemma loop_invariant_in (P : Frame -> Prop) (lo hi : nat) :
  (forall i f, (lo <= i < hi)%nat -> P f -> P (attempt i f).1) ->
  forall n i f, (lo <= i)%nat -> (i + n <= hi)%nat -> P f -> P (loop n i f).
Proof.
  intros Hstep. induction n as [|n IH]; intros i f Hlo Hhi Hf; [exact Hf |].
  simpl. assert (Hf' : P (attempt i f).1) by (apply Hstep; [lia | exact Hf]).
  destruct (attempt i f) as [f' stop]. simpl in Hf'.
  destruct stop; [exact Hf' |]. apply IH; [lia | lia | exact Hf'].
Qed.

Lemma loop_invariant (P : Frame -> Prop) :
  (forall i f, P f -> P (attempt i f).1) ->
  forall n i f, P f -> P (loop n i f).
Proof.
  intros Hstep n i f Hf.
  apply (loop_invariant_in P 0%nat (i + n)%nat); [intros; now apply Hstep | lia | lia | exact Hf].
Qed.

Lemma loop_same_config (n i : nat) (f : Frame) :
  same_config (self f) (self (loop n i f)).
Proof.
  apply (loop_invariant (fun g => same_config (self f) (self g)));
    [| apply same_config_refl].
  intros j g Hg. eapply same_config_trans; [exact Hg | apply attempt_same_config].
Qed.

(** When no attempt in a window succeeds, the loop is plain iteration. *)
Lemma attempt_fails (lo hi i : nat) (f : Frame) :
  fails_in transport lo hi -> (lo <= i < hi)%nat -> (attempt i f).2 = false.
Proof.
  intros Hfail Hi. rewrite attempt_unfold.
  destruct (Hfail i (prepare f).2 Hi) as [e ->]. now rewrite settle_raises.
Qed.

Lemma loop_S_fails (lo hi n i : nat) (f : Frame) :
  fails_in transport lo hi -> (lo <= i < hi)%nat ->
  loop (S n) i f = loop n (S i) (attempt i f).1.
Proof.
  intros Hfail Hi. simpl. pose proof (attempt_fails lo hi i f Hfail Hi) as H.
  destruct (attempt i f) as [f' stop]. simpl in *. now subst stop.
Qed.

Lemma loop_split (lo hi n m i : nat) (f : Frame) :
  fails_in transport lo hi -> (lo <= i)%nat -> (i + n <= hi)%nat ->
  loop (n + m) i f = loop m (i + n) (loop n i f).
Proof.
  intros Hfail. revert i f. induction n as [|n IH]; intros i f Hlo Hhi.
  - simpl. now rewrite Nat.add_0_r.
  - change (S n + m)%nat with (S (n + m)).
    rewrite !(loop_S_fails lo hi) by (assumption || lia).
    rewrite IH by lia. f_equal. lia.
Qed.

Lemma loop_snoc (lo hi n i : nat) (f : Frame) :
  fails_in transport lo hi -> (lo <= i)%nat -> (i + n <= hi)%nat ->
  loop (S n) i f = (attempt (i + n) (loop n i f)).1.
Proof.
  intros Hfail Hlo Hhi. replace (S n) with (n + 1)%nat by lia.
  rewrite (loop_split lo hi) by assumption.
  simpl. now destruct (attempt _ _) as [g []].
Qed.

Lemma loop_log_length (lo hi n i : nat) (f : Frame) :
  fails_in transport lo hi -> (lo <= i)%nat -> (i + n <= hi)%nat ->
  length (log (loop n i f)) = (length (log f) + n)%nat.
Proof.
  intros Hfail. revert i f. induction n as [|n IH]; intros i f Hlo Hhi.
  - simpl. lia.
  - rewrite (loop_S_fails lo hi) by (assumption || lia). rewrite IH by lia.
    rewrite attempt_log, length_app. simpl. lia.
Qed.

(** The log only grows. *)
Lemma loop_log_prefix (n i : nat) (f : Frame) : log f `prefix_of` log (loop n i f).
Proof.
  apply (loop_invariant (fun g => log f `prefix_of` log g)); [| reflexivity].
  intros j g Hg. rewrite attempt_log. now apply prefix_app_r.
Qed.

End RequestFacts.

(** *** Calls in which no attempt succeeds *)

Section FailingCalls.

Variable transport : nat -> Exchange -> outcome.
Variable rnd : nat -> nat.
Variable r : Requester.
Variable path : string.
Variable pinned : option string.

#[local] Abbreviation attempt := (attempt transport rnd path).
#[local] Abbreviation loop := (loop transport rnd path).
#[local] Abbreviation start := (start_frame r pinned).

Lemma run_unfold :
  run transport rnd r path pinned = loop (Z.to_nat (maxRetries r)) 0%nat start.
Proof. reflexivity. Qed.

(** An attempt that ends in the TLS clause sets no message and no result. *)
Lemma attempt_ssl (i : nat) (f : Frame) (e : exn) :
  transport i (prepare rnd path f).2 = Raises e -> caught_by e = OnSSL ->
  error_v (attempt i f).1 = error_v f /\ result_v (attempt i f).1 = result_v f /\
  log (attempt i f).1 = (prepare rnd path f).1.(log).
Proof.
  intros Ht Hc. rewrite attempt_unfold, Ht, settle_raises, Hc. simpl.
  destruct (prepare_keeps rnd path f) as (-> & -> & _). auto.
Qed.

(** An attempt that ends in another clause sets that clause's message. *)
Lemma attempt_message (i : nat) (f : Frame) (e : exn) :
  transport i (prepare rnd path f).2 = Raises e -> caught_by e <> OnSSL ->
  let g := (prepare rnd path f).1 in
  error_v (attempt i f).1
  = failure_message (self f) (proxy_v g)
      (url (self f) +:+ basePath (self f) +:+ path) (caught_by e) /\
  result_v (attempt i f).1 = result_v f /\
  url (self (attempt i f).1) = url (self f) /\
  log (attempt i f).1 = log f ++ [mkAttempt (proxy_v g) (prepare rnd path f).2].
Proof.
  intros Ht Hc g. rewrite attempt_unfold, Ht, settle_raises.
  rewrite <- (prepare_url rnd path f).
  rewrite <- (failure_message_same_config _ _ _ _ _ (prepare_same_config rnd path f)).
  destruct (prepare_keeps rnd path f) as (Hres & _ & Hurl).
  pose proof (prepare_log rnd path f) as Hlog.
  destruct (caught_by e); try (now destruct Hc); simpl; auto.
Qed.

Lemma finish_message (f : Frame) (m : option string) :
  error_v f = m -> truthy_opt m = true ->
  finish f = Raised (RequestException (str_of_opt m)).
Proof. intros He Hm. unfold finish. now rewrite He, Hm. Qed.

End FailingCalls.

Example requester_with_retries_built (n : Z) :
  init dns_down (mkArgs "http://host/" 1 n 20 (Some "10.0.0.1") None None false false
                        "get" None None)
  = Ok (requester_with_retries n).
Proof. reflexivity. Qed.

(** C3.  When every attempt ends in the TLS clause, no message and no
    result is ever set, at any stage of the loop; all the attempts are
    made, and the call returns [None] without raising. *)
Theorem tls_only_returns_nothing (transport : nat -> Exchange -> outcome)
    (rnd : nat -> nat) (r : Requester) (path : string) (pinned : option string) :
  (forall i x, exists e, transport i x = Raises e /\ isinstance e SSLError = true) ->
  (forall n, error_v (loop transport rnd path n 0 (start_frame r pinned)) = None /\
             result_v (loop transport rnd path n 0 (start_frame r pinned)) = None) /\
  length (log (run transport rnd r path pinned)) = Z.to_nat (maxRetries r) /\
  request transport rnd r path pinned = Returned None.
Proof.
  intros Hssl.
  assert (Hinv : forall n,
             error_v (loop transport rnd path n 0 (start_frame r pinned)) = None /\
             result_v (loop transport rnd path n 0 (start_frame r pinned)) = None).
  { intros n.
    apply (loop_invariant transport rnd path
             (fun g => error_v g = None /\ result_v g = None)); [| now split].
    intros i f [He Hr].
    destruct (Hssl i (prepare rnd path f).2) as (e & Ht & Hi).
    destruct (attempt_ssl transport rnd path i f e Ht (caught_by_ssl e Hi))
      as (-> & -> & _). now split. }
  split; [exact Hinv |]. split.
  - unfold run.
    rewrite (loop_log_length transport rnd path 0 (Z.to_nat (maxRetries r)));
      [reflexivity | | lia | lia].
    intros i x _. destruct (Hssl i x) as (e & -> & _). now exists e.
  - unfold request, run, finish.
    destruct (Hinv (Z.to_nat (maxRetries r))) as [-> ->]. reflexivity.
Qed.

Lemma tls_only_returns_nothing_witness :
  length (log (run (always SSLError) first_draw (requester_with_retries 3) "admin" None))
  = 3%nat /\
  request (always SSLError) first_draw (requester_with_retries 3) "admin" None
  = Returned None.
Proof.
  refine (proj2 (tls_only_returns_nothing (always SSLError) first_draw
                   (requester_with_retries 3) "admin" None _)).
  intros i x. exists SSLError. split; reflexivity.
Defined.

(** C2 (amended).  Let every exchange fail.  With [maxRetries] at least 1
    and every failure ending in the timeout clause, all the attempts are
    made and the call fails with "Request timeout: <url>".  In general the
    message raised is the one of the last attempt that set one: that of
    attempt [k] when the later attempts all end in the TLS clause, which
    sets none.  With [maxRetries] 0 or less no attempt is made and the
    call returns [None]. *)
Theorem failures_exhaust_retries (transport : nat -> Exchange -> outcome)
    (rnd : nat -> nat) (r : Requester) (path : string) (pinned : option string) :
  (forall i x, exists e, transport i x = Raises e) ->
  (1 <= maxRetries r ->
   (forall i x e, transport i x = Raises e -> caught_by e = OnTimeout) ->
   length (log (run transport rnd r path pinned)) = Z.to_nat (maxRetries r) /\
   request transport rnd r path pinned
   = Raised (RequestException ("Request timeout: " +:+ url r +:+ basePath r +:+ path)) /\
   contains "timeout" ("Request timeout: " +:+ url r +:+ basePath r +:+ path) = true) /\
  (forall k c, Z.of_nat k < maxRetries r -> c <> OnSSL ->
   (forall x e, transport k x = Raises e -> caught_by e = c) ->
   (forall j x e, (k < j)%nat -> transport j x = Raises e -> caught_by e = OnSSL) ->
   exists a, log (run transport rnd r path pinned) !! k = Some a /\
     request transport rnd r path pinned
     = Raised (RequestException
                 (str_of_opt (failure_message r (used_proxy a) (x_url (exchange a)) c)))) /\
  (maxRetries r <= 0 ->
   log (run transport rnd r path pinned) = [] /\
   request transport rnd r path pinned = Returned None).
Proof.
  intros Hfail.
  set (N := Z.to_nat (maxRetries r)).
  assert (Hwin : fails_in transport 0 N) by (intros i x _; apply Hfail).
  split; [| split].
  3:{ intros Hle. unfold request, run.
      replace (Z.to_nat (maxRetries r)) with 0%nat by lia. now split. }
  - intros Hpos Htime.
    set (msg := "Request timeout: " +:+ url r +:+ basePath r +:+ path).
    split; [| split; [| reflexivity]].
    + unfold run. fold N.
      rewrite (loop_log_length transport rnd path 0 N); [reflexivity | exact Hwin | lia | lia].
    + pose (I := fun g : Frame => url (self g) = url r /\ basePath (self g) = basePath r).
      assert (Hstep : forall i f, I f ->
                I (attempt transport rnd path i f).1 /\
                error_v (attempt transport rnd path i f).1 = Some msg).
      { intros i f [Hu Hb].
        destruct (Hfail i (prepare rnd path f).2) as [e Ht].
        assert (Hc : caught_by e <> OnSSL) by (rewrite (Htime _ _ _ Ht); discriminate).
        destruct (attempt_message transport rnd path i f e Ht Hc) as (He & _ & Hu' & _).
        destruct (same_config_fields _ _ (attempt_same_config transport rnd path i f))
          as (Hb' & _).
        rewrite He, (Htime _ _ _ Ht), Hu, Hb. unfold I. rewrite Hu', Hb'. auto. }
      destruct (Z.to_nat (maxRetries r)) as [|n] eqn:EN; [lia |].
      unfold request, run. rewrite EN.
      rewrite (loop_S_fails transport rnd path 0 N) by (assumption || (subst N; lia)).
      assert (H0 : I (start_frame r pinned)) by (split; reflexivity).
      destruct (Hstep 0%nat _ H0) as [H1 E1].
      assert (Hend : I (loop transport rnd path n 1 (attempt transport rnd path 0 (start_frame r pinned)).1)
                     /\ error_v (loop transport rnd path n 1 (attempt transport rnd path 0 (start_frame r pinned)).1) = Some msg).
      { apply (loop_invariant transport rnd path (fun g => I g /\ error_v g = Some msg));
          [| now split].
        intros i f [Hf _]. now apply Hstep. }
      apply (finish_message _ (Some msg)); [apply Hend | reflexivity].
  - intros k c Hk Hc Hat Hlater.
    assert (HkN : (k < N)%nat) by (subst N; lia).
    unfold request, run. fold N.
    replace N with (S k + (N - S k))%nat by lia.
    rewrite (loop_split transport rnd path 0 N) by (assumption || lia).
    rewrite (loop_snoc transport rnd path 0 N) by (assumption || lia).
    simpl (0 + _)%nat.
    set (g := loop transport rnd path k 0 (start_frame r pinned)).
    destruct (Hfail k (prepare rnd path g).2) as [e Ht].
    pose proof (Hat _ _ Ht) as Hce.
    assert (Hne : caught_by e <> OnSSL) by (now rewrite Hce).
    destruct (attempt_message transport rnd path k g e Ht Hne) as (He & _ & _ & Hlog).
    set (g1 := (attempt transport rnd path k g).1) in *.
    set (a := mkAttempt (proxy_v (prepare rnd path g).1) (prepare rnd path g).2) in *.
    assert (Hlen : length (log g) = k).
    { unfold g. rewrite (loop_log_length transport rnd path 0 N);
        [reflexivity | exact Hwin | lia | lia]. }
    assert (Hend : error_v (loop transport rnd path (N - S k) (S k) g1) = error_v g1 /\
                   log g1 `prefix_of` log (loop transport rnd path (N - S k) (S k) g1)).
    { apply (loop_invariant_in transport rnd path
               (fun f => error_v f = error_v g1 /\ log g1 `prefix_of` log f) (S k) N);
        [| lia | lia | now split].
      intros i f Hi [Hf Hp].
      destruct (Hfail i (prepare rnd path f).2) as [e' Ht'].
      assert (Hssl : caught_by e' = OnSSL) by (apply (Hlater i _ _ ltac:(lia) Ht')).
      destruct (attempt_ssl transport rnd path i f e' Ht' Hssl) as (-> & _ & _).
      split; [exact Hf |]. rewrite attempt_log. now apply prefix_app_r. }
    destruct Hend as [Herr [l Hl]].
    exists a. split.
    + rewrite Hl, Hlog. rewrite <- app_assoc.
      rewrite lookup_app_r by lia. now rewrite Hlen, Nat.sub_diag.
    + apply finish_message.
      * rewrite Herr, He, Hce. subst a. simpl.
        rewrite (prepare_url rnd path g).
        apply failure_message_same_config. apply loop_same_config.
      * now apply failure_message_truthy.
Qed.

Lemma failures_exhaust_retries_witness :
  (length (log (run (always ReadTimeout) first_draw (requester_with_retries 3) "admin" None))
   = 3%nat /\
   request (always ReadTimeout) first_draw (requester_with_retries 3) "admin" None
   = Raised (RequestException "Request timeout: http://10.0.0.1:80/admin") /\
   contains "timeout" "Request timeout: http://10.0.0.1:80/admin" = true) /\
  request timeout_connection_tls first_draw (requester_with_retries 3) "admin" None
  = Raised (RequestException "Cannot connect to: host:80").
Proof.
  split.
  - refine (proj1 (failures_exhaust_retries (always ReadTimeout) first_draw
                     (requester_with_retries 3) "admin" None _) _ _).
    + intros i x. now exists ReadTimeout.
    + simpl. lia.
    + intros i x e [= <-]. reflexivity.
  - destruct (proj1 (proj2 (failures_exhaust_retries timeout_connection_tls first_draw
                       (requester_with_retries 3) "admin" None
                       ltac:(intros [|[|i]] x; eexists; reflexivity)))
                    1%nat OnConnection ltac:(simpl; lia) ltac:(discriminate)
                    ltac:(intros x e [= <-]; reflexivity)
                    ltac:(intros [|[|j]] x e Hj; [lia | lia | intros [= <-]; reflexivity]))
      as (a & _ & Hreq).
    exact Hreq.
Defined.

(** C2, as stated, fails for [maxRetries = 0]: no attempt is made and the
    call returns [None] instead of failing. *)
Lemma zero_retries_no_failure :
  log (run (always ReadTimeout) first_draw (requester_with_retries 0) "admin" None) = [] /\
  request (always ReadTimeout) first_draw (requester_with_retries 0) "admin" None
  = Returned None.
Proof. split; reflexivity. Qed.

(** With the class hierarchy of the requests library a connect timeout is
    a [ConnectionError], so the clause for connection errors, which comes
    first, handles it: the message does not mention a timeout.  Likewise an
    invalid proxy URL is handled by the clause for invalid URLs. *)
Example connect_timeout_handled_as_connection_error :
  caught_by ConnectTimeout = OnConnection /\
  caught_by InvalidProxyURL = OnInvalidURL /\
  request (always ConnectTimeout) first_draw (requester_with_retries 3) "admin" None
  = Raised (RequestException "Cannot connect to: host:80").
Proof. repeat split. Qed.

(** The failures that do end in the timeout clause. *)
Example timeout_clause_members :
  forall e, caught_by e = OnTimeout <->
            e = ReadTimeout \/ e = Timeout \/ e = IncompleteRead \/ e = socket_timeout.
Proof.
  intros e. split.
  - destruct e; vm_compute; intros H; try discriminate H; auto.
  - intros [-> | [-> | [-> | ->]]]; reflexivity.
Qed.

(** A failure that sets a message, followed by a success: the response is
    captured, and the call raises the stale message all the same. *)
Lemma late_success_discarded (transport : nat -> Exchange -> outcome)
    (rnd : nat -> nat) (r : Requester) (path : string) (pinned : option string)
    (raw : RawResponse) :
  2 <= maxRetries r ->
  (forall x, exists e, transport 0%nat x = Raises e /\ caught_by e = OnConnection) ->
  (forall x, transport 1%nat x = Returns raw) ->
  length (log (run transport rnd r path pinned)) = 2%nat /\
  result_v (run transport rnd r path pinned)
  = Some (mkResponse (status_code raw) (raw_reason raw) (raw_headers raw) (content raw)) /\
  request transport rnd r path pinned
  = Raised (RequestException
              ("Cannot connect to: " +:+ host r +:+ ":" +:+ str_of_int (port r))).
Proof.
  intros HN H0 H1.
  destruct (Z.to_nat (maxRetries r)) as [|[|n]] eqn:EN; [lia | lia |].
  unfold request, run. rewrite EN.
  set (f0 := start_frame r pinned).
  destruct (H0 (prepare rnd path f0).2) as (e & Ht & Hc).
  assert (Hne : caught_by e <> OnSSL) by (rewrite Hc; discriminate).
  destruct (attempt_message transport rnd path 0 f0 e Ht Hne) as (He & Hr & _ & Hlog).
  assert (Hstop : (attempt transport rnd path 0 f0).2 = false).
  { rewrite attempt_unfold, Ht. now rewrite settle_raises. }
  cbn [loop]. destruct (attempt transport rnd path 0 f0) as [f1 stop] eqn:E0.
  simpl in He, Hr, Hlog, Hstop. subst stop.
  rewrite attempt_unfold, H1. cbn [settle].
  destruct (prepare_keeps rnd path f1) as (_ & He1 & _).
  pose proof (prepare_log rnd path f1) as Hl1.
  repeat split.
  - simpl. rewrite Hl1, Hlog. now rewrite !length_app.
  - apply (finish_message _
             (Some ("Cannot connect to: " +:+ host r +:+ ":" +:+ str_of_int (port r))));
      simpl.
    + rewrite He1, He, Hc. reflexivity.
    + reflexivity.
Qed.

(** C1 at its failing input: [maxRetries = 2], a connection error on the
    first attempt, a successful exchange on the second.  Two attempts are
    made, the second response is captured, and the call raises. *)
Theorem connection_error_then_success_raises :
  length (log (run fail_then_succeed first_draw (requester_with_retries 2) "admin" None))
  = 2%nat /\
  result_v (run fail_then_succeed first_draw (requester_with_retries 2) "admin" None)
  = Some (mkResponse 200 "OK" [("Server", "nginx")] "hello") /\
  request fail_then_succeed first_draw (requester_with_retries 2) "admin" None
  = Raised (RequestException "Cannot connect to: host:80").
Proof.
  apply (late_success_discarded fail_then_succeed first_draw
           (requester_with_retries 2) "admin" None ok_response).
  - simpl. lia.
  - intros x. now exists ConnectionError.
  - reflexivity.
Qed.

(** X17.  What the code does guarantee: a success is returned when no
    earlier attempt of the call set a message, that is when the attempts
    before it all ended in the TLS clause.  The call then makes exactly
    [k + 1] attempts and returns the capture of that response. *)
Lemma success_returned_without_message (transport : nat -> Exchange -> outcome)
    (rnd : nat -> nat) (r : Requester) (path : string) (pinned : option string)
    (k : nat) (raw : RawResponse) :
  Z.of_nat k < maxRetries r ->
  (forall i x, (i < k)%nat -> exists e, transport i x = Raises e /\ caught_by e = OnSSL) ->
  (forall x, transport k x = Returns raw) ->
  length (log (run transport rnd r path pinned)) = S k /\
  request transport rnd r path pinned
  = Returned (Some (mkResponse (status_code raw) (raw_reason raw)
                               (raw_headers raw) (content raw))).
Proof.
  intros Hk Hssl Hok.
  set (N := Z.to_nat (maxRetries r)).
  assert (Hwin : fails_in transport 0 k).
  { intros i x [_ Hi]. destruct (Hssl i x Hi) as (e & -> & _). now exists e. }
  unfold request, run. fold N.
  replace N with (k + S (N - S k))%nat by (subst N; lia).
  rewrite (loop_split transport rnd path 0 k) by (assumption || lia).
  set (g := loop transport rnd path k 0 (start_frame r pinned)).
  assert (Hg : error_v g = None /\ result_v g = None).
  { apply (loop_invariant_in transport rnd path
             (fun f => error_v f = None /\ result_v f = None) 0 k);
      [| lia | lia | now split].
    intros i f [_ Hi] [He Hr].
    destruct (Hssl i (prepare rnd path f).2 Hi) as (e & Ht & Hc).
    destruct (attempt_ssl transport rnd path i f e Ht Hc) as (-> & -> & _). now split. }
  assert (Hlen : length (log g) = k).
  { unfold g. rewrite (loop_log_length transport rnd path 0 k);
      [reflexivity | exact Hwin | lia | lia]. }
  cbn [loop]. simpl (0 + k)%nat.
  rewrite attempt_unfold, Hok. cbn [settle].
  destruct (prepare_keeps rnd path g) as (_ & He & _).
  split.
  - simpl. rewrite prepare_log, length_app. simpl. lia.
  - unfold finish. simpl. rewrite He, (proj1 Hg). reflexivity.
Qed.

Lemma attempt_same_config_of (transport : nat -> Exchange -> outcome) (rnd : nat -> nat)
    (path : string) (i : nat) (f f' : Frame) (stop : bool) :
  attempt transport rnd path i f = (f', stop) -> same_config (self f) (self f').
Proof.
  intros H. pose proof (attempt_same_config transport rnd path i f) as Hs.
  now rewrite H in Hs.
Qed.

(** *** The TLS fallback *)

(** C6.  When the exchange of an attempt fails with a TLS error, the
    handler rebuilds the base URL from the protocol, the host name and the
    port, whatever [requestByHostname] says, touches nothing else (the
    pending message and the result included) and lets the loop go on with
    the next attempt.  Over the whole attempt the only other change to the
    object is the User-Agent header, when random agents are set. *)
Theorem tls_fallback_transition (transport : nat -> Exchange -> outcome)
    (rnd : nat -> nat) (path : string) (i : nat) (f : Frame) (e : exn) :
  transport i (prepare rnd path f).2 = Raises e ->
  isinstance e SSLError = true ->
  let g := (prepare rnd path f).1 in
  let f' := (attempt transport rnd path i f).1 in
  let rebuilt := protocol (self f) +:+ "://" +:+ host (self f) +:+ ":" +:+
                 str_of_int (port (self f)) +:+ "/" in
  settle g (prepare rnd path f).2 (Raises e)
  = (mkFrame (set_url rebuilt (self g)) (proxy_v g) (result_v g) (error_v g)
             (draws g) (log g), false) /\
  self f' = set_url rebuilt (self g) /\
  url (self f') = rebuilt /\
  error_v f' = error_v f /\
  result_v f' = result_v f /\
  same_config (self f) (self f') /\
  (forall key, key <> "User-Agent" -> headers (self f') !! key = headers (self f) !! key) /\
  (truthy_list (randomAgents (self f)) = false -> self f' = set_url rebuilt (self f)) /\
  (attempt transport rnd path i f).2 = false /\
  (forall n, loop transport rnd path (S n) i f = loop transport rnd path n (S i) f').
Proof.
  intros Ht Hi g f' rebuilt.
  pose proof (caught_by_ssl e Hi) as Hc.
  destruct (same_config_fields _ _ (prepare_same_config rnd path f))
    as (_ & Hproto & Hhost & Hport & _).
  assert (Hsettle : settle g (prepare rnd path f).2 (Raises e)
            = (mkFrame (set_url rebuilt (self g)) (proxy_v g) (result_v g) (error_v g)
                       (draws g) (log g), false)).
  { rewrite settle_raises, Hc. subst g rebuilt. unfold base_url.
    now rewrite Hproto, Hhost, Hport. }
  assert (Hatt : attempt transport rnd path i f
            = (mkFrame (set_url rebuilt (self g)) (proxy_v g) (result_v g) (error_v g)
                       (draws g) (log g), false)).
  { rewrite attempt_unfold, Ht. exact Hsettle. }
  destruct (prepare_keeps rnd path f) as (Hres & Herr & _).
  assert (Hhdr : forall key, key <> "User-Agent" ->
                   headers (self g) !! key = headers (self f) !! key).
  { intros key Hkey. subst g. rewrite prepare_spec. simpl.
    now apply pick_agent_headers. }
  subst f'. rewrite Hatt. cbn [fst snd self error_v result_v].
  split; [exact Hsettle |]. split; [reflexivity |]. split; [reflexivity |].
  split; [exact Herr |]. split; [exact Hres |].
  split; [exact (attempt_same_config_of _ _ _ _ _ _ _ Hatt) |].
  split; [exact Hhdr |]. split; [| split; [reflexivity |]].
  - intros Hnone. f_equal. subst g. rewrite prepare_spec. simpl.
    unfold pick_agent. now destruct (randomAgents (self f)) as [[|? ?]|].
  - intros n. simpl. now rewrite Hatt.
Qed.

Lemma tls_fallback_transition_witness :
  url (self (attempt tls_on_first first_draw "admin" 0
               (start_frame (requester_with_retries 3) None)).1)
  = "http://host:80/" /\
  error_v (attempt tls_on_first first_draw "admin" 0
             (start_frame (requester_with_retries 3) None)).1 = None /\
  (attempt tls_on_first first_draw "admin" 0
     (start_frame (requester_with_retries 3) None)).2 = false.
Proof.
  pose proof (tls_fallback_transition tls_on_first first_draw "admin" 0
                (start_frame (requester_with_retries 3) None) SSLError
                eq_refl eq_refl) as H.
  cbv zeta in H.
  destruct H as (_ & _ & Hurl & Herr & _ & _ & _ & _ & Hstop & _).
  split; [exact Hurl |]. split; [exact Herr | exact Hstop].
Defined.


(** *** The Host header *)

Lemma prepare_headers (rnd : nat -> nat) (path : string) (f : Frame) :
  x_headers (prepare rnd path f).2 = headers (self (prepare rnd path f).1) /\
  forall key, key <> "User-Agent" ->
              headers (self (prepare rnd path f).1) !! key = headers (self f) !! key.
Proof.
  rewrite prepare_spec. simpl. split; [reflexivity |].
  intros key Hkey. now apply pick_agent_headers.
Qed.

(** No call of [request] assigns the Host header, and every exchange of
    the call is handed the value the object had when the call started. *)
Lemma request_keeps_host_header (transport : nat -> Exchange -> outcome)
    (rnd : nat -> nat) (r : Requester) (path : string) (pinned : option string) :
  headers (self (run transport rnd r path pinned)) !! "Host" = headers r !! "Host" /\
  Forall (fun a => x_headers (exchange a) !! "Host" = headers r !! "Host")
         (log (run transport rnd r path pinned)).
Proof.
  unfold run.
  apply (loop_invariant transport rnd path
           (fun g => headers (self g) !! "Host" = headers r !! "Host" /\
                     Forall (fun a => x_headers (exchange a) !! "Host" = headers r !! "Host")
                            (log g))).
  - intros i f [Hh Hl].
    destruct (prepare_headers rnd path f) as [Hx Hk].
    assert (Hhost : headers (self (prepare rnd path f).1) !! "Host" = headers r !! "Host").
    { rewrite Hk by discriminate. exact Hh. }
    split.
    + rewrite attempt_unfold.
      destruct (settle_same_config (prepare rnd path f).1 (prepare rnd path f).2
                  (transport i (prepare rnd path f).2)) as [_ ->].
      exact Hhost.
    + rewrite attempt_log. apply Forall_app. split; [exact Hl |].
      apply Forall_singleton. simpl. now rewrite Hx.
  - split; [reflexivity | constructor].
Qed.

(** C7.  After construction with protocol http (resp. https) the Host
    header is the host when the port is 80 (resp. 443) and host:port
    otherwise.  [setHeader("Host", x)], on the object in any later state,
    replaces the value by [x] stripped, and no call of [request] changes
    the entry: it is what every attempt of a call sends, and it is still
    there after any number of calls. *)
Theorem host_header_managed (dns : string -> option string) (a : InitArgs)
    (r : Requester) :
  init dns a = Ok r ->
  (protocol r = "http" ->
   (port r = 80 -> headers r !! "Host" = Some (Some (host r))) /\
   (port r <> 80 ->
    headers r !! "Host" = Some (Some (host r +:+ ":" +:+ str_of_int (port r)))) /\
   (headers r !! "Host" = Some (Some (host r)) <-> port r = 80)) /\
  (protocol r = "https" ->
   (port r = 443 -> headers r !! "Host" = Some (Some (host r))) /\
   (port r <> 443 ->
    headers r !! "Host" = Some (Some (host r +:+ ":" +:+ str_of_int (port r)))) /\
   (headers r !! "Host" = Some (Some (host r)) <-> port r = 443)) /\
  (forall r' x, headers (setHeader r' "Host" x) !! "Host"
                = Some (if truthy_opt x then strip <$> x else x)) /\
  (forall r' transport rnd path pinned,
     headers (self (run transport rnd r' path pinned)) !! "Host" = headers r' !! "Host" /\
     Forall (fun att => x_headers (exchange att) !! "Host" = headers r' !! "Host")
            (log (run transport rnd r' path pinned))) /\
  (forall x calls,
     headers (after_calls (setHeader r "Host" x) calls) !! "Host"
     = Some (if truthy_opt x then strip <$> x else x)) /\
  (forall calls, headers (after_calls r calls) !! "Host" = headers r !! "Host").
Proof.
  assert (Hset : forall r' x, headers (setHeader r' "Host" x) !! "Host"
                              = Some (if truthy_opt x then strip <$> x else x)).
  { intros r' x. unfold setHeader. cbn [headers]. apply lookup_insert_eq. }
  assert (Hcalls : forall calls r',
            headers (after_calls r' calls) !! "Host" = headers r' !! "Host").
  { induction calls as [|c calls IH]; intros r'; [reflexivity |].
    cbn [after_calls]. rewrite IH. apply request_keeps_host_header. }
  intros H.
  apply init_Ok_inv in H as (parsed & ipv & p & target & _ & _ & _ & _ & ->).
  cbn [protocol port host headers].
  rewrite lookup_singleton_eq.
  split; [| split; [| split; [| split; [| split]]]].
  - intros ->. rewrite host_header_http.
    destruct (Z.eqb_spec p 80) as [->|Hne].
    + split; [reflexivity |]. split; [intros []; reflexivity |]. split; reflexivity.
    + split; [intros; lia |]. split; [reflexivity |].
      split; [| intros; lia].
      intros [= Heq]. now apply host_with_port_differs in Heq.
  - intros ->. rewrite host_header_https.
    destruct (Z.eqb_spec p 443) as [->|Hne].
    + split; [reflexivity |]. split; [intros []; reflexivity |]. split; reflexivity.
    + split; [intros; lia |]. split; [reflexivity |].
      split; [| intros; lia].
      intros [= Heq]. now apply host_with_port_differs in Heq.
  - exact Hset.
  - intros r' transport rnd path pinned. apply request_keeps_host_header.
  - intros x calls. rewrite Hcalls. apply Hset.
  - intros calls. apply Hcalls.
Qed.

Lemma host_header_managed_witness :
  init dns_up (default_args "https://example.com:8443/app") = Ok requester_https /\
  headers requester_https !! "Host" = Some (Some "example.com:8443") /\
  headers (setHeader requester_https "Host" (Some " x ")) !! "Host" = Some (Some "x") /\
  headers (after_calls (setHeader requester_https "Host" (Some " x "))
             [mkCall fail_then_succeed first_draw "admin" None;
              mkCall (always SSLError) first_draw "login" None]) !! "Host"
  = Some (Some "x").
Proof.
  assert (Hinit : init dns_up (default_args "https://example.com:8443/app")
                  = Ok requester_https) by reflexivity.
  destruct (host_header_managed dns_up (default_args "https://example.com:8443/app")
              requester_https Hinit) as (_ & Hs & Hset & _ & Hcalls & _).
  split; [exact Hinit |]. split; [| split].
  - exact (proj1 (proj2 (Hs eq_refl)) ltac:(discriminate)).
  - exact (Hset requester_https (Some " x ")).
  - exact (Hcalls (Some " x ") _).
Defined.

(** *** Proxy selection *)

Lemma with_scheme_idem (p : string) : with_scheme (with_scheme p) = with_scheme p.
Proof.
  unfold with_scheme at 2 3.
  destruct (existsb (fun pre => startswith pre p) proxy_prefixes) eqn:E.
  - unfold with_scheme. now rewrite E.
  - reflexivity.
Qed.

Lemma with_scheme_truthy (p : string) : truthy (with_scheme p) = true.
Proof.
  unfold with_scheme.
  destruct (existsb (fun pre => startswith pre p) proxy_prefixes) eqn:E; [| reflexivity].
  destruct p; [discriminate E | reflexivity].
Qed.

(** A proxy that is set and already carries a scheme goes through the
    selection and the normalization of an attempt unchanged. *)
Lemma settled_proxy_kept (rnd : nat -> nat) (r : Requester) (p : string) (k : nat) :
  truthy p = true -> with_scheme p = p ->
  select_proxy rnd r (Some p) k = (Some p, k) /\
  proxy_settings (Some p) = (Some p, Some (proxies_for p)).
Proof.
  intros Ht Hn. unfold select_proxy, proxy_settings. simpl.
  now rewrite Ht, Hn.
Qed.

(** What the normalization makes of a proxy that is set. *)
Lemma proxy_settings_truthy (pv : option string) :
  truthy_opt (proxy_settings pv).1 = true ->
  exists p, (proxy_settings pv).1 = Some p /\ truthy p = true /\ with_scheme p = p /\
            (proxy_settings pv).2 = Some (proxies_for p).
Proof.
  unfold proxy_settings. destruct pv as [p0|]; [| discriminate].
  destruct (truthy p0) eqn:E0; simpl; [| now rewrite E0].
  intros _. exists (with_scheme p0).
  auto using with_scheme_truthy, with_scheme_idem.
Qed.

Lemma choice_elem_of (rnd : nat -> nat) (k : nat) (p : string) (ps : list string) :
  choice rnd k p ps ∈ p :: ps.
Proof.
  unfold choice. apply list_elem_of_In, nth_In.
  change (length (p :: ps)) with (S (length ps)).
  apply Nat.mod_upper_bound. discriminate.
Qed.

(** The local [proxy] and the [proxies] argument of an attempt. *)
Lemma attempt_proxy (transport : nat -> Exchange -> outcome) (rnd : nat -> nat)
    (path : string) (i : nat) (f : Frame) :
  let chosen := (select_proxy rnd (self f) (proxy_v f) (draws f)).1 in
  proxy_v (attempt transport rnd path i f).1 = (proxy_settings chosen).1 /\
  x_proxies (prepare rnd path f).2 = (proxy_settings chosen).2.
Proof.
  intros chosen. rewrite attempt_unfold.
  destruct (settle_log (prepare rnd path f).1 (prepare rnd path f).2
              (transport i (prepare rnd path f).2)) as [_ ->].
  rewrite prepare_spec. simpl. auto.
Qed.

Lemma attempt_persistent (transport : nat -> Exchange -> outcome) (rnd : nat -> nat)
    (path : string) (i : nat) (f : Frame) :
  persistent (log f) /\ proxy_recorded f ->
  persistent (log (attempt transport rnd path i f).1) /\
  proxy_recorded (attempt transport rnd path i f).1.
Proof.
  intros [Hpers Hrec].
  destruct (attempt_proxy transport rnd path i f) as [Hpv Hpx].
  set (f' := (attempt transport rnd path i f).1) in *.
  set (x := (prepare rnd path f).2) in *.
  assert (Hlog : log f' = log f ++ [mkAttempt (proxy_v f') x]) by apply attempt_log.
  assert (Hnew : proxy_recorded f').
  { intros a Ha. rewrite Hlog, last_snoc in Ha. injection Ha as <-. simpl.
    split; [reflexivity |]. intros Ht. rewrite Hpv in Ht |- *.
    destruct (proxy_settings_truthy _ Ht) as (p & Hp & Htp & Hn & Hx).
    exists p. rewrite Hpx. auto. }
  split; [| exact Hnew].
  intros a b ai aj Hab Hai Haj Ht. rewrite Hlog in Hai, Haj.
  destruct (decide (b < length (log f))%nat) as [Hb|Hb].
  - rewrite lookup_app_l in Hai, Haj by lia. now apply (Hpers a b).
  - assert (b = length (log f)).
    { apply lookup_lt_Some in Haj. rewrite length_app in Haj. simpl in Haj. lia. }
    subst b. rewrite lookup_app_r, Nat.sub_diag in Haj by lia.
    injection Haj as <-. simpl.
    destruct (decide (a = length (log f))) as [->|Hne].
    + rewrite lookup_app_r, Nat.sub_diag in Hai by lia. injection Hai as <-. auto.
    + rewrite lookup_app_l in Hai by lia.
      destruct (last (log f)) as [al|] eqn:El.
      2:{ apply last_None in El. rewrite El in Hai. discriminate Hai. }
      assert (Hal : log f !! pred (length (log f)) = Some al) by now rewrite <- last_lookup.
      destruct (Hpers a (pred (length (log f))) ai al ltac:(lia) Hai Hal Ht) as [Hu Hx].
      destruct (Hrec al El) as [Hv Hset].
      rewrite <- Hv, Hu in Hset. destruct (Hset Ht) as (p & Hp & Htp & Hn & Hxl).
      assert (Hpf : proxy_v f = Some p) by now rewrite <- Hv, Hu.
      destruct (settled_proxy_kept rnd (self f) p (draws f) Htp Hn) as [Hsel Hps].
      rewrite Hpf, Hsel in Hpv, Hpx. cbn [fst snd] in Hpv, Hpx.
      rewrite Hps in Hpv, Hpx. cbn [fst snd] in Hpv, Hpx.
      rewrite Hpv, Hpx, Hp, <- Hx, Hxl. auto.
Qed.

Lemma run_persistent (transport : nat -> Exchange -> outcome) (rnd : nat -> nat)
    (r : Requester) (path : string) (pinned : option string) :
  persistent (log (run transport rnd r path pinned)).
Proof.
  unfold run.
  apply (loop_invariant transport rnd path
           (fun g => persistent (log g) /\ proxy_recorded g)).
  - intros i f. apply attempt_persistent.
  - split.
    + intros i j ai aj _ Hi. discriminate Hi.
    + intros a Ha. discriminate Ha.
Qed.

(** The first entry of the log is the first attempt. *)
Lemma run_first_attempt (transport : nat -> Exchange -> outcome) (rnd : nat -> nat)
    (r : Requester) (path : string) (pinned : option string) (a : Attempt) :
  log (run transport rnd r path pinned) !! 0%nat = Some a ->
  a = mkAttempt (proxy_v (attempt transport rnd path 0 (start_frame r pinned)).1)
                (prepare rnd path (start_frame r pinned)).2.
Proof.
  unfold run. destruct (Z.to_nat (maxRetries r)) as [|n]; [discriminate |].
  set (f0 := start_frame r pinned).
  pose proof (attempt_log transport rnd path 0 f0) as Hlog.
  simpl. destruct (attempt transport rnd path 0 f0) as [f' stop] eqn:E.
  simpl in Hlog.
  assert (Hpre : log f' `prefix_of` log (if stop then f' else loop transport rnd path n 1 f')).
  { destruct stop; [reflexivity | apply loop_log_prefix]. }
  destruct Hpre as [l Hl]. destruct stop; rewrite Hl, Hlog; simpl; congruence.
Qed.

(** C8.  The proxy of a call is resolved in this order: the pinned proxy
    when one is given; else a member of the proxy list when the list is
    not empty; else the proxy of the object when it is set; else none.
    The first attempt uses the proxy so chosen, with a scheme put in front
    when it has none, and once an attempt has a proxy every later attempt
    of the call has the same one, with the same [proxies] setting. *)
Theorem proxy_resolution_order (transport : nat -> Exchange -> outcome)
    (rnd : nat -> nat) (r : Requester) (path : string) (pinned : option string) :
  let chosen := (select_proxy rnd r pinned 0).1 in
  let attempts := log (run transport rnd r path pinned) in
  (truthy_opt pinned = true -> chosen = pinned) /\
  (truthy_opt pinned = false ->
   forall p ps, proxylist r = Some (p :: ps) -> exists q, q ∈ p :: ps /\ chosen = Some q) /\
  (truthy_opt pinned = false -> truthy_list (proxylist r) = false ->
   truthy_opt (proxy r) = true -> chosen = proxy r) /\
  (truthy_opt pinned = false -> truthy_list (proxylist r) = false ->
   truthy_opt (proxy r) = false ->
   truthy_opt chosen = false /\ proxy_settings chosen = (chosen, None)) /\
  (forall a, attempts !! 0%nat = Some a ->
     used_proxy a = (proxy_settings chosen).1 /\
     x_proxies (exchange a) = (proxy_settings chosen).2) /\
  (forall i j ai aj, (i <= j)%nat ->
     attempts !! i = Some ai -> attempts !! j = Some aj ->
     truthy_opt (used_proxy ai) = true ->
     used_proxy aj = used_proxy ai /\
     x_proxies (exchange aj) = x_proxies (exchange ai)).
Proof.
  intros chosen attempts. subst chosen. unfold select_proxy.
  split; [| split; [| split; [| split; [| split]]]].
  - intros ->. reflexivity.
  - intros -> p ps ->. simpl. exists (choice rnd 0 p ps).
    split; [apply choice_elem_of | reflexivity].
  - intros -> Hl ->. simpl.
    destruct (proxylist r) as [[|? ?]|]; [reflexivity | discriminate Hl | reflexivity].
  - intros Hp Hl Hs. rewrite Hp, Hs. simpl.
    assert (Hc : (match proxylist r with
                  | Some (p :: ps) => (Some (choice rnd 0 p ps), 1%nat)
                  | _ => (pinned, 0%nat)
                  end).1 = pinned).
    { destruct (proxylist r) as [[|? ?]|]; [reflexivity | discriminate Hl | reflexivity]. }
    rewrite Hc. split; [exact Hp |].
    unfold proxy_settings. destruct pinned as [p|]; [| reflexivity].
    simpl in Hp. now rewrite Hp.
  - intros a Ha. apply run_first_attempt in Ha as ->. simpl.
    apply (attempt_proxy transport rnd path 0 (start_frame r pinned)).
  - apply run_persistent.
Qed.

Lemma proxy_resolution_order_witness :
  (exists q, q ∈ ["127.0.0.1:8080"; "https://proxy.example:3128"] /\
             (select_proxy first_draw requester_with_proxylist None 0).1 = Some q) /\
  exists a0 a1,
    log (run fail_then_succeed first_draw requester_with_proxylist "admin" None)
    = [a0; a1] /\
    used_proxy a0 = Some "http://127.0.0.1:8080" /\
    used_proxy a1 = used_proxy a0 /\
    x_proxies (exchange a1) = x_proxies (exchange a0).
Proof.
  pose proof (proxy_resolution_order fail_then_succeed first_draw
                requester_with_proxylist "admin" None) as H.
  cbv zeta in H. destruct H as (_ & Hlist & _ & _ & Hfirst & Hpers).
  split; [exact (Hlist eq_refl _ _ eq_refl) |].
  eexists _, _. split; [vm_compute; reflexivity |].
  split; [reflexivity |].
  exact (Hpers 0%nat 1%nat _ _ ltac:(lia) eq_refl eq_refl eq_refl).
Defined.

(** An empty string in the proxy list is no proxy: an attempt that draws it
    goes out without proxy, and the next attempt draws again. *)
Example empty_proxy_is_drawn_again :
  map used_proxy
    (log (run (always ReadTimeout) (fun k => k)
              (mkRequester "get" None ∅ "" "http" "host" None 80 2 1 20
                 None (Some [""; "127.0.0.1:8080"]) false None true "http://host:80/")
              "admin" None))
  = [Some ""; Some "http://127.0.0.1:8080"].
Proof. reflexivity. Qed.

Example requester_with_proxylist_built :
  init dns_down (mkArgs "http://host/" 1 2 20 None None
                        (Some ["127.0.0.1:8080"; "https://proxy.example:3128"])
                        false true "get" None None)
  = Ok requester_with_proxylist.
Proof. reflexivity. Qed.

(** * Further properties of the constructor *)

Lemma list_ascii_append (s t : string) :
  String.list_ascii_of_string (s +:+ t)
  = String.list_ascii_of_string s ++ String.list_ascii_of_string t.
Proof. induction s as [|c s IH]; simpl; [reflexivity | now f_equal]. Qed.

Lemma forallb_str_append (f : ascii -> bool) (s t : string) :
  forallb_str f (s +:+ t) = forallb_str f s && forallb_str f t.
Proof. unfold forallb_str. now rewrite list_ascii_append, forallb_app. Qed.

Lemma quote_char_is_safe (c : ascii) :
  forallb_str is_safe (Urllib.quote_char safe_chars c) = true.
Proof. destruct c as [[] [] [] [] [] [] [] []]; vm_compute; reflexivity. Qed.

Lemma quote_is_safe (s : string) : forallb_str is_safe (Urllib.quote s safe_chars) = true.
Proof.
  induction s as [|c s IH]; [reflexivity |].
  cbn [Urllib.quote]. now rewrite forallb_str_append, quote_char_is_safe, IH.
Qed.

Lemma quote_safe_fixpoint (s : string) :
  forallb_str is_safe s = true -> Urllib.quote s safe_chars = s.
Proof.
  induction s as [|c s IH]; [reflexivity |].
  unfold forallb_str. cbn [String.list_ascii_of_string forallb].
  intros [Hc Hs]%andb_prop. cbn [Urllib.quote].
  rewrite (quote_char_safe c Hc), (IH Hs). reflexivity.
Qed.

(** X1.  The base path of a constructed object consists of letters,
    digits and ASCII punctuation only, and quoting it again with the same
    safe set changes nothing: the encoding done by the constructor is
    never applied twice. *)
Theorem basePath_quoted_once (dns : string -> option string) (a : InitArgs)
    (r : Requester) :
  init dns a = Ok r ->
  forallb_str is_safe (basePath r) = true /\
  Urllib.quote (basePath r) safe_chars = basePath r.
Proof.
  intros H. apply init_Ok_inv in H as (parsed & ipv & p & target & _ & _ & _ & _ & ->).
  cbn [basePath]. unfold make_basePath.
  split; [apply quote_is_safe | apply quote_safe_fixpoint, quote_is_safe].
Qed.

Lemma basePath_quoted_once_witness :
  forallb_str is_safe "a%20b/%25/" = true /\
  Urllib.quote "a%20b/%25/" safe_chars = "a%20b/%25/".
Proof.
  exact (basePath_quoted_once dns_up (default_args "http://host/a b/%25") 
           (mkRequester "get" None {[ "Host" := Some "host" ]} "a%20b/%25/" "http" "host"
              (Some "10.0.0.1") 80 5 1 20 None None false None false
              "http://10.0.0.1:80/") eq_refl).
Defined.

Lemma split_head_no_sep (c : ascii) (s h : string) (t : list string) :
  split c s = h :: t -> has_char c h = false.
Proof.
  revert h t. induction s as [|a s IH]; intros h t.
  - intros [= <- <-]. reflexivity.
  - cbn [split]. destruct (Ascii.eqb a c) eqn:E.
    + intros [= <- <-]. reflexivity.
    + destruct (split c s) as [|piece rest] eqn:Es.
      * intros [= <- <-]. simpl. now rewrite E.
      * intros [= <- <-]. simpl. rewrite E. now apply (IH piece rest).
Qed.

Lemma split_no_sep (c : ascii) (s : string) :
  has_char c s = false -> split c s = [s].
Proof.
  induction s as [|a s IH]; [reflexivity |].
  cbn [has_char split]. intros [Ha Hs]%orb_false_elim.
  now rewrite Ha, (IH Hs).
Qed.

Lemma split_nonempty (c : ascii) (s : string) : split c s <> [].
Proof.
  destruct s as [|a s]; [discriminate |].
  cbn [split]. destruct (Ascii.eqb a c); [discriminate |].
  destruct (split c s); discriminate.
Qed.

(** X2.  The host of a constructed object never contains a colon, and
    when the network location of the URL has none either, the host is the
    whole network location and the port is the default one: 443 for
    https, 80 for any other protocol. *)
Theorem host_and_default_port (dns : string -> option string) (a : InitArgs)
    (r : Requester) :
  init dns a = Ok r ->
  has_char ":" (host r) = false /\
  exists parsed,
    parse_target (with_slash (a_url a)) (a_scheme a) = Ok parsed /\
    (has_char ":" (Urllib.netloc parsed) = false ->
     host r = Urllib.netloc parsed /\
     port r = (if String.eqb (protocol r) "https" then 443 else 80)).
Proof.
  intros H. apply init_Ok_inv in H as (parsed & ipv & p & target & Hp & _ & Hport & _ & ->).
  cbn [host port protocol]. split.
  - unfold host_of. destruct (split ":" (Urllib.netloc parsed)) as [|h t] eqn:E;
      [reflexivity | now apply (split_head_no_sep _ _ _ _ E)].
  - exists parsed. split; [exact Hp |]. intros Hno.
    unfold host_of, parse_port in *. rewrite (split_no_sep _ _ Hno) in *.
    simpl in Hport. injection Hport as <-. now split.
Qed.

Lemma host_and_default_port_witness :
  has_char ":" (host (requester_with_retries 5)) = false /\
  host (requester_with_retries 5) = "host" /\
  port (requester_with_retries 5) = 80.
Proof.
  destruct (host_and_default_port dns_down
              (mkArgs "http://host/" 1 5 20 (Some "10.0.0.1") None None false false
                      "get" None None)
              (requester_with_retries 5) eq_refl) as (Hno & parsed & Hp & Hdef).
  split; [exact Hno |].
  vm_compute in Hp. injection Hp as <-. exact (Hdef eq_refl).
Defined.

Lemma endswith_char_append (c : ascii) (s : string) :
  endswith_char c (s +:+ String c "") = true.
Proof.
  induction s as [|a s IH]; simpl; [apply Ascii.eqb_refl |].
  destruct (s +:+ String c "") eqn:E; [| exact IH].
  destruct s; discriminate E.
Qed.

(** X3.  A URL given without its trailing slash is the same target as the
    URL with the slash: the constructor builds the same object, or fails
    the same way, for both. *)
Theorem trailing_slash_immaterial (dns : string -> option string) (a : InitArgs) :
  endswith_char "/" (a_url a) = false ->
  init dns (with_url (a_url a +:+ "/") a) = init dns a.
Proof.
  intros E. unfold init.
  cbn [with_url a_url a_scheme a_requestByHostname a_httpmethod a_data
       a_maxRetries a_maxPool a_timeout a_proxy a_proxylist a_redirect a_ip].
  assert (Hs : with_slash (a_url a +:+ "/") = with_slash (a_url a)).
  { unfold with_slash. now rewrite endswith_char_append, E. }
  rewrite Hs. reflexivity.
Qed.

Lemma trailing_slash_immaterial_witness :
  init dns_up (default_args "https://example.com:8443/app/") = Ok requester_https.
Proof.
  exact (eq_trans (trailing_slash_immaterial dns_up
                     (default_args "https://example.com:8443/app") eq_refl)
                  eq_refl).
Defined.

Lemma resolve_ip_any_resolver (dns dns' : string -> option string) (a : InitArgs)
    (h : string) :
  truthy_opt (a_ip a) || truthy_opt (a_proxy a) || truthy_list (a_proxylist a) = true ->
  resolve_ip dns a h = resolve_ip dns' a h.
Proof.
  unfold resolve_ip. destruct (truthy_opt (a_ip a)); [reflexivity |].
  destruct (truthy_opt (a_proxy a)), (truthy_list (a_proxylist a));
    simpl; intros H; first [reflexivity | discriminate H].
Qed.

(** X4.  With an override ip, a proxy or a proxy list, the resolver is
    never consulted: construction gives the same result whatever the
    resolver answers, and an override ip becomes the ip of the object. *)
Theorem resolver_not_consulted (dns dns' : string -> option string) (a : InitArgs) :
  truthy_opt (a_ip a) || truthy_opt (a_proxy a) || truthy_list (a_proxylist a) = true ->
  init dns a = init dns' a /\
  (truthy_opt (a_ip a) = true -> forall r, init dns a = Ok r -> ip r = a_ip a).
Proof.
  intros H. split.
  - unfold init.
    destruct (parse_target _ _) as [parsed|e]; cbn [bind]; [| reflexivity].
    now rewrite (resolve_ip_any_resolver dns dns' a _ H).
  - intros Hip r Hr.
    apply init_Ok_inv in Hr as (parsed & ipv & p & target & _ & Hres & _ & _ & ->).
    cbn [ip]. unfold resolve_ip in Hres. rewrite Hip in Hres. now injection Hres.
Qed.

Lemma resolver_not_consulted_witness :
  init dns_down (mkArgs "http://host/" 1 5 20 (Some "10.0.0.1") None None false false
                        "get" None None)
  = init dns_up (mkArgs "http://host/" 1 5 20 (Some "10.0.0.1") None None false false
                        "get" None None) /\
  ip (requester_with_retries 5) = Some "10.0.0.1".
Proof.
  destruct (resolver_not_consulted dns_down dns_up
              (mkArgs "http://host/" 1 5 20 (Some "10.0.0.1") None None false false
                      "get" None None) eq_refl) as [Hsame Hip].
  split; [exact Hsame | exact (Hip eq_refl _ eq_refl)].
Defined.

(** X5.  For a URL that contains [://] the scheme is checked before
    anything else: a scheme other than http and https fails the
    construction with "Unsupported URL scheme: <scheme>" whatever the
    other arguments and the resolver, and an object that is built has
    protocol http or https. *)
Theorem scheme_checked_with_delimiter (dns : string -> option string) (a : InitArgs) :
  contains "://" (with_slash (a_url a)) = true ->
  (forall parsed,
     Urllib.urlparse (with_slash (a_url a)) = Ok parsed ->
     Urllib.scheme parsed <> "https" -> Urllib.scheme parsed <> "http" ->
     init dns a = Err (RequestException ("Unsupported URL scheme: " +:+ Urllib.scheme parsed))) /\
  (forall r, init dns a = Ok r -> protocol r = "https" \/ protocol r = "http").
Proof.
  intros Hd.
  assert (Hpt : forall parsed, Urllib.urlparse (with_slash (a_url a)) = Ok parsed ->
            parse_target (with_slash (a_url a)) (a_scheme a)
            = if negb (existsb (String.eqb (Urllib.scheme parsed)) ["https"; "http"])
              then Err (RequestException ("Unsupported URL scheme: " +:+ Urllib.scheme parsed))
              else Ok parsed).
  { intros parsed Hp. unfold parse_target. rewrite Hp. cbn [bind]. now rewrite Hd. }
  split.
  - intros parsed Hp H1 H2. unfold init. rewrite (Hpt parsed Hp).
    apply String.eqb_neq in H1, H2. cbn [existsb]. now rewrite H1, H2.
  - intros r Hr.
    apply init_Ok_inv in Hr as (parsed & ipv & p & target & Hp & _ & _ & _ & ->).
    cbn [protocol].
    destruct (Urllib.urlparse (with_slash (a_url a))) as [parsed0|e] eqn:E.
    + rewrite (Hpt parsed0 eq_refl) in Hp. cbn [existsb] in Hp.
      destruct (String.eqb_spec (Urllib.scheme parsed0) "https") as [H1|H1];
        [injection Hp as <-; now left |].
      destruct (String.eqb_spec (Urllib.scheme parsed0) "http") as [H2|H2];
        [injection Hp as <-; now right | discriminate Hp].
    + unfold parse_target in Hp. rewrite E in Hp. discriminate Hp.
Qed.

Lemma scheme_checked_with_delimiter_witness :
  init dns_up (mkArgs "gopher://host/" 1 5 20 (Some "10.0.0.1") (Some "p") None false
                      true "get" None (Some "http"))
  = Err (RequestException "Unsupported URL scheme: gopher") /\
  (protocol requester_https = "https" \/ protocol requester_https = "http").
Proof.
  split.
  - refine (proj1 (scheme_checked_with_delimiter dns_up
                     (mkArgs "gopher://host/" 1 5 20 (Some "10.0.0.1") (Some "p") None
                             false true "get" None (Some "http")) eq_refl)
                  (Urllib.mkParse "gopher" "host" "/" "" "" "") eq_refl _ _);
      discriminate.
  - exact (proj2 (scheme_checked_with_delimiter dns_up
                    (default_args "https://example.com:8443/app") eq_refl)
                 requester_https eq_refl).
Defined.

(** X6.  The base URL of a constructed object is
    protocol://target:port/, where the target is the host name when
    [requestByHostname] is set and the ip otherwise; without an override
    ip and without proxy that ip is what the resolver answered for the
    host. *)
Theorem base_url_target (dns : string -> option string) (a : InitArgs) (r : Requester) :
  init dns a = Ok r ->
  requestByHostname r = a_requestByHostname a /\
  (requestByHostname r = true -> url r = base_url (protocol r) (host r) (port r)) /\
  (requestByHostname r = false ->
   exists addr, ip r = Some addr /\ url r = base_url (protocol r) addr (port r)) /\
  (truthy_opt (a_ip a) = false ->
   truthy_opt (a_proxy a) || truthy_list (a_proxylist a) = false ->
   ip r = dns (host r) /\ is_Some (dns (host r))).
Proof.
  intros H.
  apply init_Ok_inv in H as (parsed & ipv & p & target & _ & Hres & _ & Ht & ->).
  cbn [requestByHostname url protocol host port ip].
  split; [reflexivity |]. split; [| split].
  - intros E. rewrite E in Ht. now subst target.
  - intros E. rewrite E in Ht. exists target. now split.
  - intros Hip Hpx. unfold resolve_ip in Hres. rewrite Hip in Hres.
    apply orb_false_elim in Hpx as [H1 H2]. rewrite H1, H2 in Hres. simpl in Hres.
    destruct (dns (host_of (Urllib.netloc parsed))) as [addr|]; [| discriminate Hres].
    injection Hres as <-. split; [reflexivity | now exists addr].
Qed.

Lemma base_url_target_witness :
  url requester_https = base_url "https" "10.0.0.1" 8443 /\
  ip requester_https = dns_up "example.com".
Proof.
  destruct (base_url_target dns_up (default_args "https://example.com:8443/app")
              requester_https eq_refl) as (_ & _ & Hip & Hdns).
  destruct (Hip eq_refl) as (addr & Ha & Hu).
  split; [| exact (proj1 (Hdns eq_refl eq_refl))].
  injection Ha as <-. exact Hu.
Defined.

(** * Further properties of the header store *)

Lemma rstrip_idem (s : string) : rstrip (rstrip s) = rstrip s.
Proof.
  induction s as [|a s IH]; [reflexivity |].
  cbn [rstrip]. destruct (rstrip s) as [|b t] eqn:E.
  - destruct (is_space a) eqn:Ea; [reflexivity |].
    cbn [rstrip]. now rewrite Ea.
  - cbn [rstrip] in IH |- *. now rewrite IH.
Qed.

Lemma lstrip_rstrip_lstrip (s : string) : lstrip (rstrip (lstrip s)) = rstrip (lstrip s).
Proof.
  induction s as [|a s IH]; [reflexivity |].
  cbn [lstrip]. destruct (is_space a) eqn:Ea; [exact IH |].
  cbn [rstrip]. destruct (rstrip s) as [|b t].
  - rewrite Ea. cbn [lstrip]. now rewrite Ea.
  - cbn [lstrip]. now rewrite Ea.
Qed.

Lemma strip_idem (s : string) : strip (strip s) = strip s.
Proof. unfold strip. now rewrite lstrip_rstrip_lstrip, rstrip_idem. Qed.

(** X7.  [setHeader] stores the stripped value under the stripped key,
    leaves every other header and every other field alone, and a later
    [setHeader] on the same key replaces the value.  The key counts
    stripped: padding it with blanks addresses the same header. *)
Theorem setHeader_store (r : Requester) (key : string) (value : option string) :
  headers (setHeader r key value) !! strip key
  = Some (if truthy_opt value then strip <$> value else value) /\
  (forall k, k <> strip key -> headers (setHeader r key value) !! k = headers r !! k) /\
  same_config r (setHeader r key value) /\
  url (setHeader r key value) = url r /\
  (forall value', setHeader (setHeader r key value) key value' = setHeader r key value') /\
  setHeader r (strip key) value = setHeader r key value.
Proof.
  unfold setHeader. cbn [headers url httpmethod data basePath protocol host ip port
                         maxRetries maxPool timeout proxy proxylist redirect
                         randomAgents requestByHostname].
  split; [apply lookup_insert_eq |]. split; [| split; [| split; [| split]]].
  - intros k Hk. now rewrite lookup_insert_ne.
  - now destruct r.
  - reflexivity.
  - intros value'. now rewrite insert_insert_eq.
  - now rewrite strip_idem.
Qed.

(** * Further properties of [request] *)

Section RunFacts.

Variable transport : nat -> Exchange -> outcome.
Variable rnd : nat -> nat.
Variable r : Requester.
Variable path : string.
Variable pinned : option string.

(** An invariant of the frames that starts true gives a property of every
    logged attempt. *)
Lemma run_log_Forall (I : Frame -> Prop) (Q : Attempt -> Prop) :
  I (start_frame r pinned) ->
  (forall i f, I f ->
     I (attempt transport rnd path i f).1 /\
     Q (mkAttempt (proxy_v (attempt transport rnd path i f).1) (prepare rnd path f).2)) ->
  I (run transport rnd r path pinned) /\ Forall Q (log (run transport rnd r path pinned)).
Proof.
  intros H0 Hstep. unfold run.
  apply (loop_invariant transport rnd path (fun g => I g /\ Forall Q (log g))).
  - intros i f [Hf Hl]. destruct (Hstep i f Hf) as [Hf' Hq].
    split; [exact Hf' |]. rewrite attempt_log. apply Forall_app. split; [exact Hl |].
    now apply Forall_singleton.
  - split; [exact H0 | constructor].
Qed.

End RunFacts.

Lemma same_config_passed_fields (r r' : Requester) :
  same_config r r' ->
  httpmethod r' = httpmethod r /\ data r' = data r /\ redirect r' = redirect r /\
  timeout r' = timeout r /\ ip r' = ip r /\ requestByHostname r' = requestByHostname r.
Proof. intros <-. repeat split. Qed.

Lemma prepare_exchange (rnd : nat -> nat) (path : string) (f : Frame) :
  let x := (prepare rnd path f).2 in
  x_method x = httpmethod (self f) /\ x_data x = data (self f) /\
  x_allow_redirects x = redirect (self f) /\ x_timeout x = timeout (self f) /\
  x_verify x = false.
Proof.
  destruct (same_config_passed_fields _ _ (pick_agent_same_config rnd (self f)
              (select_proxy rnd (self f) (proxy_v f) (draws f)).2))
    as (Hm & Hd & Hr & Ht & _).
  rewrite prepare_spec. simpl. auto.
Qed.

(** X8.  Every exchange of a call is made with the method, the body, the
    redirect policy and the timeout of the object, and with certificate
    verification turned off. *)
Theorem exchanges_follow_configuration (transport : nat -> Exchange -> outcome)
    (rnd : nat -> nat) (r : Requester) (path : string) (pinned : option string) :
  Forall (fun att =>
            x_method (exchange att) = httpmethod r /\
            x_data (exchange att) = data r /\
            x_allow_redirects (exchange att) = redirect r /\
            x_timeout (exchange att) = timeout r /\
            x_verify (exchange att) = false)
         (log (run transport rnd r path pinned)).
Proof.
  apply (run_log_Forall transport rnd r path pinned (fun g => same_config r (self g))).
  - apply same_config_refl.
  - intros i f Hf. split.
    + eapply same_config_trans; [exact Hf | apply attempt_same_config].
    + destruct (same_config_passed_fields _ _ Hf) as (Hm & Hd & Hr & Ht & _).
      cbv beta. cbn [exchange].
      destruct (prepare_exchange rnd path f) as (-> & -> & -> & -> & ->). auto.
Qed.

(** The log never has more entries than iterations were allowed. *)
Lemma loop_log_bound (transport : nat -> Exchange -> outcome) (rnd : nat -> nat)
    (path : string) (n i : nat) (f : Frame) :
  (length (log (loop transport rnd path n i f)) <= length (log f) + n)%nat.
Proof.
  revert i f. induction n as [|n IH]; intros i f; [simpl; lia |].
  pose proof (attempt_log transport rnd path i f) as Hl.
  cbn [loop]. destruct (attempt transport rnd path i f) as [f' stop].
  simpl in Hl. destruct stop.
  - rewrite Hl, length_app. simpl. lia.
  - specialize (IH (S i) f'). rewrite Hl, length_app in IH. simpl in IH. lia.
Qed.

(** X9.  A call never makes more than [maxRetries] exchanges, whatever
    the transport does; with [maxRetries] zero or negative it makes none. *)
Theorem attempts_bounded (transport : nat -> Exchange -> outcome)
    (rnd : nat -> nat) (r : Requester) (path : string) (pinned : option string) :
  (length (log (run transport rnd r path pinned)) <= Z.to_nat (maxRetries r))%nat.
Proof.
  exact (loop_log_bound transport rnd path (Z.to_nat (maxRetries r)) 0
           (start_frame r pinned)).
Qed.

(** *** Random user agents *)

Lemma pick_agent_set (rnd : nat -> nat) (r : Requester) (k : nat) (a : string)
    (agents : list string) :
  randomAgents r = Some (a :: agents) ->
  headers (pick_agent rnd r k).1 !! "User-Agent" = Some (Some (choice rnd k a agents)).
Proof. intros H. unfold pick_agent. rewrite H. simpl. apply lookup_insert_eq. Qed.

Lemma pick_agent_unset (rnd : nat -> nat) (r : Requester) (k : nat) :
  truthy_list (randomAgents r) = false -> (pick_agent rnd r k).1 = r.
Proof.
  unfold pick_agent. destruct (randomAgents r) as [[|a agents]|]; simpl;
    first [reflexivity | discriminate].
Qed.

Lemma prepare_self (rnd : nat -> nat) (path : string) (f : Frame) :
  self (prepare rnd path f).1
  = (pick_agent rnd (self f) (select_proxy rnd (self f) (proxy_v f) (draws f)).2).1.
Proof. now rewrite prepare_spec. Qed.

Lemma attempt_headers (transport : nat -> Exchange -> outcome) (rnd : nat -> nat)
    (path : string) (i : nat) (f : Frame) :
  headers (self (attempt transport rnd path i f).1) = x_headers (prepare rnd path f).2.
Proof.
  rewrite attempt_unfold.
  destruct (settle_same_config (prepare rnd path f).1 (prepare rnd path f).2
              (transport i (prepare rnd path f).2)) as [_ ->].
  now destruct (prepare_headers rnd path f) as [-> _].
Qed.

(** Without random agents a call neither changes nor adds a header. *)
Lemma run_without_agents (transport : nat -> Exchange -> outcome) (rnd : nat -> nat)
    (r : Requester) (path : string) (pinned : option string) :
  truthy_list (randomAgents r) = false ->
  headers (self (run transport rnd r path pinned)) = headers r /\
  Forall (fun att => x_headers (exchange att) = headers r)
         (log (run transport rnd r path pinned)).
Proof.
  intros Hno.
  destruct (run_log_Forall transport rnd r path pinned
              (fun g => same_config r (self g) /\ headers (self g) = headers r)
              (fun att => x_headers (exchange att) = headers r)) as [[_ H1] H2];
    [split; [apply same_config_refl | reflexivity] | | now split].
  intros i f [Hc Hh].
  assert (Hx : x_headers (prepare rnd path f).2 = headers r).
  { destruct (prepare_headers rnd path f) as [-> _]. rewrite prepare_self.
    destruct (same_config_fields _ _ Hc) as (_ & _ & _ & _ & _ & _ & _ & Hra).
    rewrite pick_agent_unset by now rewrite Hra. exact Hh. }
  split; [split |].
  - eapply same_config_trans; [exact Hc | apply attempt_same_config].
  - now rewrite attempt_headers.
  - exact Hx.
Qed.

(** X10.  With random agents set, every exchange of a call carries a
    User-Agent drawn from the list; without them a call sends the headers
    of the object as they are and leaves them unchanged.  In both cases no
    header other than User-Agent is ever changed by a call. *)
Theorem user_agent_rotation (transport : nat -> Exchange -> outcome)
    (rnd : nat -> nat) (r : Requester) (path : string) (pinned : option string) :
  (forall a agents, randomAgents r = Some (a :: agents) ->
     Forall (fun att => exists ua, ua ∈ a :: agents /\
                        x_headers (exchange att) !! "User-Agent" = Some (Some ua))
            (log (run transport rnd r path pinned))) /\
  (truthy_list (randomAgents r) = false ->
     headers (self (run transport rnd r path pinned)) = headers r /\
     Forall (fun att => x_headers (exchange att) = headers r)
            (log (run transport rnd r path pinned))) /\
  (forall key, key <> "User-Agent" ->
     headers (self (run transport rnd r path pinned)) !! key = headers r !! key /\
     Forall (fun att => x_headers (exchange att) !! key = headers r !! key)
            (log (run transport rnd r path pinned))).
Proof.
  split; [| split].
  - intros a agents Hra.
    apply (run_log_Forall transport rnd r path pinned (fun g => same_config r (self g)));
      [apply same_config_refl |].
    intros i f Hc. split.
    + eapply same_config_trans; [exact Hc | apply attempt_same_config].
    + cbv beta. cbn [exchange].
      destruct (same_config_fields _ _ Hc) as (_ & _ & _ & _ & _ & _ & _ & Hra').
      destruct (prepare_headers rnd path f) as [-> _]. rewrite prepare_self.
      rewrite (pick_agent_set rnd (self f) _ a agents) by now rewrite Hra'.
      eexists. split; [apply choice_elem_of | reflexivity].
  - apply run_without_agents.
  - intros key Hkey.
    apply (run_log_Forall transport rnd r path pinned
             (fun g => headers (self g) !! key = headers r !! key)); [reflexivity |].
    intros i f Hf.
    assert (Hx : x_headers (prepare rnd path f).2 !! key = headers r !! key).
    { destruct (prepare_headers rnd path f) as [-> Hk]. now rewrite Hk. }
    split; [now rewrite attempt_headers | exact Hx].
Qed.

(** Without random agents no call of a list changes a header, and every
    exchange of every call is sent the headers of the object. *)
Lemma calls_without_agents (calls : list Call) (r : Requester) :
  truthy_list (randomAgents r) = false ->
  headers (after_calls r calls) = headers r /\
  Forall (fun att => x_headers (exchange att) = headers r) (calls_log r calls).
Proof.
  revert r. induction calls as [|c calls IH]; intros r Hno; [split; [reflexivity | constructor] |].
  cbn [after_calls calls_log].
  destruct (run_without_agents (c_transport c) (c_rnd c) r (c_path c) (c_pinned c) Hno)
    as [Hh Hall].
  assert (Hno' : truthy_list (randomAgents
                    (self (run (c_transport c) (c_rnd c) r (c_path c) (c_pinned c)))) = false).
  { destruct (same_config_fields _ _
                (loop_same_config (c_transport c) (c_rnd c) (c_path c)
                   (Z.to_nat (maxRetries r)) 0 (start_frame r (c_pinned c))))
      as (_ & _ & _ & _ & _ & _ & _ & Hra).
    unfold run. rewrite Hra. exact Hno. }
  destruct (IH _ Hno') as [Hh' Hall']. rewrite Hh in Hh', Hall'.
  split; [exact Hh' |]. apply Forall_app. now split.
Qed.

(** X11.  [unsetRandomAgents] stops the rotation but does not remove the
    User-Agent header.  After a call that made at least one attempt with
    random agents, the headers of the object are those of the last
    exchange of that call, with the agent drawn for it; after
    [unsetRandomAgents] they stay so over any number of later calls, and
    every exchange of every later call is sent them, that agent
    included. *)
Theorem unset_keeps_last_user_agent (transport : nat -> Exchange -> outcome)
    (rnd : nat -> nat) (r : Requester) (path : string) (pinned : option string)
    (a : string) (agents : list string) :
  1 <= maxRetries r ->
  randomAgents r = Some (a :: agents) ->
  let f := run transport rnd r path pinned in
  let r1 := unsetRandomAgents (self f) in
  exists att ua,
    last (log f) = Some att /\
    x_headers (exchange att) !! "User-Agent" = Some (Some ua) /\
    ua ∈ a :: agents /\
    headers r1 = x_headers (exchange att) /\
    forall calls,
      headers (after_calls r1 calls) = x_headers (exchange att) /\
      headers (after_calls r1 calls) !! "User-Agent" = Some (Some ua) /\
      Forall (fun att' => x_headers (exchange att') = x_headers (exchange att) /\
                          x_headers (exchange att') !! "User-Agent" = Some (Some ua))
             (calls_log r1 calls).
Proof.
  intros HN Hra f r1.
  pose (K := fun g : Frame => same_config r (self g) /\
               exists att ua,
                 last (log g) = Some att /\
                 headers (self g) = x_headers (exchange att) /\
                 x_headers (exchange att) !! "User-Agent" = Some (Some ua) /\
                 ua ∈ a :: agents).
  assert (Hstep : forall i g, same_config r (self g) ->
                    K (attempt transport rnd path i g).1).
  { intros i g Hc. split.
    - eapply same_config_trans; [exact Hc | apply attempt_same_config].
    - exists (mkAttempt (proxy_v (attempt transport rnd path i g).1) (prepare rnd path g).2),
             (choice rnd (select_proxy rnd (self g) (proxy_v g) (draws g)).2 a agents).
      cbn [exchange].
      split; [rewrite attempt_log; apply last_snoc |].
      split; [apply attempt_headers |]. split; [| apply choice_elem_of].
      destruct (same_config_fields _ _ Hc) as (_ & _ & _ & _ & _ & _ & _ & Hra').
      destruct (prepare_headers rnd path g) as [-> _]. rewrite prepare_self.
      apply pick_agent_set. now rewrite Hra'. }
  assert (HK : K f).
  { subst f. unfold run. destruct (Z.to_nat (maxRetries r)) as [|n] eqn:EN; [lia |].
    cbn [loop].
    pose proof (Hstep 0%nat (start_frame r pinned) (same_config_refl r)) as H0.
    destruct (attempt transport rnd path 0 (start_frame r pinned)) as [f' stop].
    simpl in H0. destruct stop; [exact H0 |].
    apply (loop_invariant transport rnd path K); [| exact H0].
    intros i g [Hc _]. now apply Hstep. }
  destruct HK as [_ (att & ua & Hlast & Hh & Hua & Hin)].
  exists att, ua.
  split; [exact Hlast |]. split; [exact Hua |]. split; [exact Hin |].
  split; [exact Hh |].
  intros calls.
  destruct (calls_without_agents calls r1 eq_refl) as [Hc Hall].
  change (headers r1) with (headers (self f)) in Hc, Hall. rewrite Hh in Hc, Hall.
  split; [exact Hc |]. split; [now rewrite Hc |].
  eapply Forall_impl; [exact Hall |].
  intros att' ->. now split.
Qed.

Lemma unset_keeps_last_user_agent_witness :
  exists att ua,
    last (log (run fail_then_succeed first_draw requester_with_agents "admin" None))
    = Some att /\
    x_headers (exchange att) !! "User-Agent" = Some (Some ua) /\
    ua ∈ ["agent-one"; "agent-two"] /\
    headers (unsetRandomAgents
               (self (run fail_then_succeed first_draw requester_with_agents "admin" None)))
    = x_headers (exchange att) /\
    forall calls,
      headers (after_calls
                 (unsetRandomAgents
                    (self (run fail_then_succeed first_draw requester_with_agents
                               "admin" None))) calls)
      = x_headers (exchange att) /\
      headers (after_calls
                 (unsetRandomAgents
                    (self (run fail_then_succeed first_draw requester_with_agents
                               "admin" None))) calls) !! "User-Agent" = Some (Some ua) /\
      Forall (fun att' => x_headers (exchange att') = x_headers (exchange att) /\
                          x_headers (exchange att') !! "User-Agent" = Some (Some ua))
             (calls_log
                (unsetRandomAgents
                   (self (run fail_then_succeed first_draw requester_with_agents
                              "admin" None))) calls).
Proof.
  exact (unset_keeps_last_user_agent fail_then_succeed first_draw requester_with_agents
           "admin" None "agent-one" ["agent-two"] ltac:(simpl; lia) eq_refl).
Defined.

(** *** The URLs a call goes to *)

Lemma attempt_url (transport : nat -> Exchange -> outcome) (rnd : nat -> nat)
    (path : string) (i : nat) (f : Frame) :
  url (self (attempt transport rnd path i f).1) = url (self f) \/
  url (self (attempt transport rnd path i f).1)
  = base_url (protocol (self f)) (host (self f)) (port (self f)).
Proof.
  rewrite attempt_unfold.
  destruct (prepare_keeps rnd path f) as (_ & _ & Hu).
  destruct (same_config_fields _ _ (prepare_same_config rnd path f))
    as (_ & Hp & Hh & Hpt & _).
  destruct (transport i (prepare rnd path f).2) as [raw|e]; [left; exact Hu |].
  rewrite settle_raises.
  destruct (caught_by e); simpl; first [left; exact Hu | right; now rewrite Hp, Hh, Hpt].
Qed.

(** X12.  Every exchange of a call goes to base URL + base path + path,
    where the base URL is the one the object had when the call started
    or, after a TLS failure, the one built from the host name.  The first
    exchange always goes to the former; an object whose base URL is
    already built from the host name keeps it and uses it throughout. *)
Theorem request_urls (transport : nat -> Exchange -> outcome)
    (rnd : nat -> nat) (r : Requester) (path : string) (pinned : option string) :
  let by_name := base_url (protocol r) (host r) (port r) in
  let f := run transport rnd r path pinned in
  (url (self f) = url r \/ url (self f) = by_name) /\
  Forall (fun att => x_url (exchange att) = url r +:+ basePath r +:+ path \/
                     x_url (exchange att) = by_name +:+ basePath r +:+ path) (log f) /\
  (forall att, log f !! 0%nat = Some att ->
     x_url (exchange att) = url r +:+ basePath r +:+ path) /\
  (url r = by_name ->
   url (self f) = url r /\
   Forall (fun att => x_url (exchange att) = url r +:+ basePath r +:+ path) (log f)).
Proof.
  intros by_name f.
  assert (H : (same_config r (self f) /\ (url (self f) = url r \/ url (self f) = by_name)) /\
              Forall (fun att => x_url (exchange att) = url r +:+ basePath r +:+ path \/
                                 x_url (exchange att) = by_name +:+ basePath r +:+ path)
                     (log f)).
  { subst f.
    apply (run_log_Forall transport rnd r path pinned
             (fun g => same_config r (self g) /\
                       (url (self g) = url r \/ url (self g) = by_name)));
      [split; [apply same_config_refl | now left] |].
    intros i g [Hc Hu].
    destruct (same_config_fields _ _ Hc) as (Hb & Hp & Hh & Hpt & _).
    split; [split |].
    - eapply same_config_trans; [exact Hc | apply attempt_same_config].
    - destruct (attempt_url transport rnd path i g) as [-> | ->];
        [exact Hu | right; subst by_name; now rewrite Hp, Hh, Hpt].
    - cbv beta. cbn [exchange]. rewrite prepare_url, Hb.
      destruct Hu as [-> | ->]; [now left | now right]. }
  destruct H as [[_ Hu] Hall].
  split; [exact Hu |]. split; [exact Hall |]. split.
  - intros att Ha. apply run_first_attempt in Ha as ->. cbn [exchange].
    now rewrite prepare_url.
  - intros E. split; [destruct Hu as [-> | ->]; congruence |].
    eapply Forall_impl; [exact Hall |].
    intros att [-> | ->]; [reflexivity | now rewrite E].
Qed.

(** X13.  The TLS fallback sticks: once an attempt of a call has failed
    with a TLS error, every later attempt of the call goes to the URL
    built from the host name, and the object keeps that base URL when the
    call is over, so that later calls use it too. *)
Theorem tls_fallback_sticks (transport : nat -> Exchange -> outcome)
    (rnd : nat -> nat) (r : Requester) (path : string) (pinned : option string)
    (k : nat) :
  Z.of_nat k < maxRetries r ->
  (forall i x, (i < k)%nat -> exists e, transport i x = Raises e) ->
  (forall x, exists e, transport k x = Raises e /\ caught_by e = OnSSL) ->
  let by_name := base_url (protocol r) (host r) (port r) in
  url (self (run transport rnd r path pinned)) = by_name /\
  forall j att, (k < j)%nat ->
    log (run transport rnd r path pinned) !! j = Some att ->
    x_url (exchange att) = by_name +:+ basePath r +:+ path.
Proof.
  intros Hk Hbefore Hssl by_name.
  set (N := Z.to_nat (maxRetries r)).
  assert (Hwin : fails_in transport 0 (S k)).
  { intros i x [_ Hi]. destruct (decide (i = k)) as [->|Hne].
    - destruct (Hssl x) as (e & -> & _). now exists e.
    - apply Hbefore. lia. }
  unfold run. fold N. replace N with (S k + (N - S k))%nat by (subst N; lia).
  rewrite (loop_split transport rnd path 0 (S k)) by (assumption || lia).
  set (g1 := loop transport rnd path (S k) 0 (start_frame r pinned)).
  assert (Hlen : length (log g1) = S k).
  { unfold g1. rewrite (loop_log_length transport rnd path 0 (S k));
      [reflexivity | exact Hwin | lia | lia]. }
  assert (Hc1 : same_config r (self g1)) by apply loop_same_config.
  assert (Hu1 : url (self g1) = by_name).
  { unfold g1. rewrite (loop_snoc transport rnd path 0 (S k)) by (assumption || lia).
    simpl (0 + k)%nat.
    set (g := loop transport rnd path k 0 (start_frame r pinned)).
    destruct (same_config_fields _ _ (loop_same_config transport rnd path k 0
                                        (start_frame r pinned)))
      as (_ & Hp & Hh & Hpt & _). fold g in Hp, Hh, Hpt. cbn [self start_frame] in Hp, Hh, Hpt.
    destruct (same_config_fields _ _ (prepare_same_config rnd path g))
      as (_ & Hp' & Hh' & Hpt' & _).
    rewrite attempt_unfold. destruct (Hssl (prepare rnd path g).2) as (e & -> & Hc).
    rewrite settle_raises, Hc. cbn [fst self url set_url].
    subst by_name. now rewrite Hp', Hh', Hpt', Hp, Hh, Hpt. }
  pose (P := fun f : Frame =>
               same_config r (self f) /\ url (self f) = by_name /\
               exists l, log f = log g1 ++ l /\
                 Forall (fun att => x_url (exchange att) = by_name +:+ basePath r +:+ path) l).
  assert (HP : P (loop transport rnd path (N - S k) (0 + S k) g1)).
  { apply (loop_invariant transport rnd path P).
    - intros i f (Hc & Hu & l & Hl & Hall).
      destruct (same_config_fields _ _ Hc) as (Hb & Hp & Hh & Hpt & _).
      split; [| split].
      + eapply same_config_trans; [exact Hc | apply attempt_same_config].
      + destruct (attempt_url transport rnd path i f) as [-> | ->];
          [exact Hu | subst by_name; now rewrite Hp, Hh, Hpt].
      + exists (l ++ [mkAttempt (proxy_v (attempt transport rnd path i f).1)
                                (prepare rnd path f).2]).
        split; [rewrite attempt_log, Hl; now rewrite app_assoc |].
        apply Forall_app. split; [exact Hall |]. apply Forall_singleton.
        cbn [exchange]. now rewrite prepare_url, Hu, Hb.
    - split; [exact Hc1 |]. split; [exact Hu1 |]. exists []. split; [now rewrite app_nil_r | constructor]. }
  destruct HP as (_ & Hu & l & Hl & Hall).
  split; [exact Hu |].
  intros j att Hj Ha. rewrite Hl, lookup_app_r in Ha by lia.
  exact (proj1 (Forall_lookup _ _) Hall _ _ Ha).
Qed.

Lemma tls_fallback_sticks_witness :
  url (self (run tls_on_first first_draw (requester_with_retries 3) "admin" None))
  = "http://host:80/" /\
  forall j att, (0 < j)%nat ->
    log (run tls_on_first first_draw (requester_with_retries 3) "admin" None) !! j = Some att ->
    x_url (exchange att) = "http://host:80/admin".
Proof.
  exact (tls_fallback_sticks tls_on_first first_draw (requester_with_retries 3) "admin" None
           0%nat ltac:(simpl; lia) ltac:(intros i x Hi; lia)
           ltac:(intros x; exists SSLError; split; reflexivity)).
Defined.

(** *** What a call returns *)

Lemma loop_result_provenance (transport : nat -> Exchange -> outcome) (rnd : nat -> nat)
    (path : string) (n i : nat) (f : Frame) :
  length (log f) = i -> result_v f = None ->
  let g := loop transport rnd path n i f in
  result_v g = None \/
  exists att raw,
    last (log g) = Some att /\
    transport (length (log g) - 1)%nat (exchange att) = Returns raw /\
    result_v g = Some (capture raw).
Proof.
  revert i f. induction n as [|n IH]; intros i f Hlen Hres; [now left |].
  cbn zeta. cbn [loop].
  pose proof (attempt_unfold transport rnd path i f) as Hatt.
  pose proof (attempt_log transport rnd path i f) as Hlog.
  destruct (prepare_keeps rnd path f) as (Hr & _ & _).
  destruct (transport i (prepare rnd path f).2) as [raw|e] eqn:Ht.
  - cbn [settle] in Hatt.
    destruct (attempt transport rnd path i f) as [f' stop].
    injection Hatt as -> ->. right.
    exists (mkAttempt (proxy_v (prepare rnd path f).1) (prepare rnd path f).2), raw.
    cbn [log result_v fst] in *. rewrite Hlog, last_snoc, length_app. simpl.
    replace (length (log f) + 1 - 1)%nat with i by lia.
    now rewrite Ht.
  - rewrite settle_raises in Hatt.
    destruct (attempt transport rnd path i f) as [f' stop].
    injection Hatt as -> ->. cbn [fst] in Hlog.
    apply IH.
    + rewrite Hlog, length_app. simpl. lia.
    + destruct (caught_by e); simpl; congruence.
Qed.

(** X14.  A call hands out nothing of its own making: a Response it
    returns is the capture of what the transport returned for the last
    exchange made, and an error it raises is a [RequestException] with the
    message left pending.  A call that returns a Response had no message
    pending. *)
Theorem request_outcome_provenance (transport : nat -> Exchange -> outcome)
    (rnd : nat -> nat) (r : Requester) (path : string) (pinned : option string) :
  let f := run transport rnd r path pinned in
  (forall resp, request transport rnd r path pinned = Returned (Some resp) ->
     truthy_opt (error_v f) = false /\
     exists att raw,
       last (log f) = Some att /\
       transport (length (log f) - 1)%nat (exchange att) = Returns raw /\
       resp = capture raw) /\
  (forall e, request transport rnd r path pinned = Raised e ->
     exists m, e = RequestException m /\ error_v f = Some m /\ truthy m = true).
Proof.
  intros f. unfold request, finish. fold f. split.
  - intros resp H. destruct (truthy_opt (error_v f)) eqn:E; [discriminate H |].
    split; [reflexivity |]. injection H as H.
    destruct (loop_result_provenance transport rnd path (Z.to_nat (maxRetries r)) 0
                (start_frame r pinned) eq_refl eq_refl) as [Hn | (att & raw & Hl & Ht & Hr)].
    + fold (run transport rnd r path pinned) in Hn. fold f in Hn. congruence.
    + fold (run transport rnd r path pinned) in Hl, Ht, Hr. fold f in Hl, Ht, Hr.
      exists att, raw. split; [exact Hl |]. split; [exact Ht | congruence].
  - intros e H. destruct (error_v f) as [m|] eqn:E; [| discriminate H].
    simpl in H. destruct (truthy m) eqn:Em; [| discriminate H].
    injection H as <-. exists m. auto.
Qed.

Lemma success_returned_without_message_witness :
  length (log (run tls_on_first first_draw (requester_with_retries 3) "admin" None))
  = 2%nat /\
  request tls_on_first first_draw (requester_with_retries 3) "admin" None
  = Returned (Some (mkResponse 200 "OK" [("Server", "nginx")] "hello")).
Proof.
  exact (success_returned_without_message tls_on_first first_draw
           (requester_with_retries 3) "admin" None 1%nat ok_response
           ltac:(simpl; lia)
           ltac:(intros [|i] x Hi; [exists SSLError; split; reflexivity | lia])
           ltac:(reflexivity)).
Defined.

(** *** Proxies *)

Lemma startswith_true (p s : string) :
  startswith p s = true -> exists t, s = p +:+ t.
Proof.
  revert s. induction p as [|a p IH]; intros s; [now exists s |].
  destruct s as [|b s]; [discriminate |].
  rewrite startswith_cons. destruct (Ascii.eqb_spec a b) as [<-|]; [| discriminate].
  intros H. destruct (IH s H) as [t ->]. now exists t.
Qed.

Lemma http_is_not_https (q : string) :
  startswith "http:" q = true -> startswith "https:" q = false.
Proof. intros H. apply startswith_true in H as [t ->]. reflexivity. Qed.

(** X15.  A proxy given without one of the known schemes is taken as an
    http proxy.  Every proxy is applied to https traffic; it is applied to
    http traffic too unless it is an https proxy; and no other kind of
    traffic is given a proxy. *)
Theorem proxy_mapping (p : string) :
  let q := with_scheme p in
  existsb (fun pre => startswith pre q) proxy_prefixes = true /\
  (existsb (fun pre => startswith pre p) proxy_prefixes = true -> q = p) /\
  (existsb (fun pre => startswith pre p) proxy_prefixes = false -> q = "http://" +:+ p) /\
  proxies_for q !! "https" = Some q /\
  (startswith "https:" q = true -> proxies_for q !! "http" = None) /\
  (startswith "https:" q = false -> proxies_for q !! "http" = Some q) /\
  (forall k, k <> "http" -> k <> "https" -> proxies_for q !! k = None).
Proof.
  intros q.
  assert (Hq : existsb (fun pre => startswith pre q) proxy_prefixes = true).
  { subst q. unfold with_scheme.
    destruct (existsb (fun pre => startswith pre p) proxy_prefixes) eqn:E;
      [exact E | reflexivity]. }
  split; [exact Hq |].
  split; [intros E; subst q; unfold with_scheme; now rewrite E |].
  split; [intros E; subst q; unfold with_scheme; now rewrite E |].
  clearbody q. unfold proxies_for.
  destruct (startswith "http:" q) eqn:E1.
  - rewrite (http_is_not_https q E1).
    split; [now rewrite lookup_insert_ne, lookup_singleton_eq |].
    split; [discriminate |]. split; [intros _; apply lookup_insert_eq |].
    intros k H1 H2. now rewrite lookup_insert_ne, lookup_singleton_ne.
  - destruct (startswith "https:" q) eqn:E2.
    + split; [apply lookup_singleton_eq |].
      split; [intros _; now rewrite lookup_singleton_ne |]. split; [discriminate |].
      intros k H1 H2. now rewrite lookup_singleton_ne.
    + split; [apply lookup_insert_eq |]. split; [discriminate |].
      split; [intros _; now rewrite lookup_insert_ne, lookup_singleton_eq |].
      intros k H1 H2. now rewrite lookup_insert_ne, lookup_singleton_ne.
Qed.

Lemma proxy_settings_of_truthy (p : string) :
  truthy p = true ->
  proxy_settings (Some p) = (Some (with_scheme p), Some (proxies_for (with_scheme p))).
Proof. intros H. unfold proxy_settings. now rewrite H. Qed.

Lemma select_proxy_truthy (rnd : nat -> nat) (r : Requester) (p : string) (k : nat) :
  truthy p = true -> select_proxy rnd r (Some p) k = (Some p, k).
Proof. intros H. unfold select_proxy. simpl. now rewrite H. Qed.

(** The proxy variable being [Some p] or its normal form, every attempt
    that follows uses the normal form. *)
Lemma attempt_with_proxy (transport : nat -> Exchange -> outcome) (rnd : nat -> nat)
    (path : string) (i : nat) (f : Frame) (p : string) :
  truthy p = true ->
  (select_proxy rnd (self f) (proxy_v f) (draws f)).1 = Some p \/
  (select_proxy rnd (self f) (proxy_v f) (draws f)).1 = Some (with_scheme p) ->
  proxy_v (attempt transport rnd path i f).1 = Some (with_scheme p) /\
  x_proxies (prepare rnd path f).2 = Some (proxies_for (with_scheme p)).
Proof.
  intros Hp Hsel.
  destruct (attempt_proxy transport rnd path i f) as [-> ->].
  destruct Hsel as [-> | ->].
  - now rewrite (proxy_settings_of_truthy p Hp).
  - rewrite (proxy_settings_of_truthy _ (with_scheme_truthy p)).
    now rewrite with_scheme_idem.
Qed.

(** X16.  A pinned proxy is used, with its scheme, on every attempt of
    the call, whatever the proxy list and the proxy of the object are.
    Without pinned proxy and without proxy list the proxy of the object is
    used on every attempt; and when there is none either, no attempt uses
    a proxy. *)
Theorem proxy_of_every_attempt (transport : nat -> Exchange -> outcome)
    (rnd : nat -> nat) (r : Requester) (path : string) (pinned : option string) :
  (forall p, pinned = Some p -> truthy p = true ->
     Forall (fun att => used_proxy att = Some (with_scheme p) /\
                        x_proxies (exchange att) = Some (proxies_for (with_scheme p)))
            (log (run transport rnd r path pinned))) /\
  (truthy_opt pinned = false -> truthy_list (proxylist r) = false ->
   forall p, proxy r = Some p -> truthy p = true ->
     Forall (fun att => used_proxy att = Some (with_scheme p) /\
                        x_proxies (exchange att) = Some (proxies_for (with_scheme p)))
            (log (run transport rnd r path pinned))) /\
  (truthy_opt pinned = false -> truthy_list (proxylist r) = false ->
   truthy_opt (proxy r) = false ->
     Forall (fun att => x_proxies (exchange att) = None)
            (log (run transport rnd r path pinned))).
Proof.
  split; [| split].
  - intros p -> Hp.
    apply (run_log_Forall transport rnd r path (Some p)
             (fun g => proxy_v g = Some p \/ proxy_v g = Some (with_scheme p)));
      [now left |].
    intros i f Hpv.
    assert (Hsel : (select_proxy rnd (self f) (proxy_v f) (draws f)).1 = Some p \/
                   (select_proxy rnd (self f) (proxy_v f) (draws f)).1 = Some (with_scheme p)).
    { destruct Hpv as [-> | ->]; [left | right].
      - now rewrite select_proxy_truthy.
      - now rewrite (select_proxy_truthy _ _ _ _ (with_scheme_truthy p)). }
    destruct (attempt_with_proxy transport rnd path i f p Hp Hsel) as [H1 H2].
    split; [now right |]. cbv beta. cbn [used_proxy exchange]. now split.
  - intros Hpin Hlist p Hpr Hp.
    apply (run_log_Forall transport rnd r path pinned
             (fun g => same_config r (self g) /\
                       (proxy_v g = pinned \/ proxy_v g = Some (with_scheme p))));
      [split; [apply same_config_refl | now left] |].
    intros i f [Hc Hpv].
    destruct (same_config_fields _ _ Hc) as (_ & _ & _ & _ & _ & Hpr' & Hl' & _).
    assert (Hsel : (select_proxy rnd (self f) (proxy_v f) (draws f)).1 = Some p \/
                   (select_proxy rnd (self f) (proxy_v f) (draws f)).1 = Some (with_scheme p)).
    { destruct Hpv as [-> | ->]; [left | right].
      - unfold select_proxy. rewrite Hpin, Hl', Hpr', Hpr. simpl. rewrite Hp.
        now destruct (proxylist r) as [[|? ?]|].
      - now rewrite (select_proxy_truthy _ _ _ _ (with_scheme_truthy p)). }
    destruct (attempt_with_proxy transport rnd path i f p Hp Hsel) as [H1 H2].
    split; [split |].
    + eapply same_config_trans; [exact Hc | apply attempt_same_config].
    + now right.
    + cbv beta. cbn [used_proxy exchange]. now split.
  - intros Hpin Hlist Hpr.
    apply (run_log_Forall transport rnd r path pinned
             (fun g => same_config r (self g) /\ proxy_v g = pinned));
      [split; [apply same_config_refl | reflexivity] |].
    intros i f [Hc Hpv].
    destruct (same_config_fields _ _ Hc) as (_ & _ & _ & _ & _ & Hpr' & Hl' & _).
    assert (Hsel : (select_proxy rnd (self f) (proxy_v f) (draws f)).1 = pinned).
    { unfold select_proxy. rewrite Hpv, Hpin, Hl', Hpr', Hpr. simpl.
      now destruct (proxylist r) as [[|? ?]|]. }
    assert (Hset : proxy_settings pinned = (pinned, None)).
    { unfold proxy_settings. destruct pinned as [p|]; [| reflexivity].
      simpl in Hpin. now rewrite Hpin. }
    destruct (attempt_proxy transport rnd path i f) as [H1 H2].
    rewrite Hsel, Hset in H1, H2.
    split; [split |].
    + eapply same_config_trans; [exact Hc | apply attempt_same_config].
    + exact H1.
    + exact H2.
Qed.

(** *** The errors of the constructor *)

Lemma urlparse_error (u : string) (e : pyerr) :
  Urllib.urlparse u = Err e -> e = ValueError "Invalid IPv6 URL".
Proof.
  assert (Hrest : forall sch v, Urllib.split_rest sch v = Err e ->
                                e = ValueError "Invalid IPv6 URL").
  { intros sch v. unfold Urllib.split_rest.
    destruct (startswith "//" v); simpl.
    - destruct (Urllib.splitnetloc v) as [n w].
      destruct (_ || _); simpl; [congruence |].
      destruct (if has_char "#" w then _ else _) as [w1 frag].
      destruct (if has_char "?" w1 then _ else _). discriminate.
    - destruct (if has_char "#" v then _ else _) as [w1 frag].
      destruct (if has_char "?" w1 then _ else _). discriminate. }
  assert (Hsplit : Urllib.urlsplit u = Err e -> e = ValueError "Invalid IPv6 URL").
  { unfold Urllib.urlsplit.
    destruct (find ":" u) as [[|i]|]; try apply Hrest.
    destruct (String.eqb _ "http"); [apply Hrest |].
    destruct (forallb_str _ _); [| apply Hrest].
    destruct (_ || _); apply Hrest. }
  unfold Urllib.urlparse.
  destruct (Urllib.urlsplit u) as [r|e'] eqn:E; simpl.
  - destruct (_ && _); [| discriminate].
    destruct (Urllib.splitparams _). discriminate.
  - intros [= ->]. now apply Hsplit.
Qed.

(** X18.  A [RequestException] raised by the constructor carries one of
    three messages, each with its cause: "Unsupported URL scheme: " and
    the scheme, for a URL that contains [://] and whose scheme is neither
    http nor https; "Couldn't resolve DNS", with no override ip, no proxy
    and no proxy list; "Invalid port number: " and the port segment, for
    a segment [int] rejects.  An AttributeError raised by the constructor
    is the one on [ip], with a proxy configured, no override ip and
    [requestByHostname] false. *)
Theorem construction_errors (dns : string -> option string) (a : InitArgs) :
  (forall m, init dns a = Err (RequestException m) ->
     (exists parsed,
        Urllib.urlparse (with_slash (a_url a)) = Ok parsed /\
        contains "://" (with_slash (a_url a)) = true /\
        Urllib.scheme parsed <> "https" /\ Urllib.scheme parsed <> "http" /\
        m = "Unsupported URL scheme: " +:+ Urllib.scheme parsed) \/
     (m = "Couldn't resolve DNS" /\
      truthy_opt (a_ip a) = false /\
      truthy_opt (a_proxy a) || truthy_list (a_proxylist a) = false) \/
     (exists parsed seg,
        parse_target (with_slash (a_url a)) (a_scheme a) = Ok parsed /\
        split ":" (Urllib.netloc parsed) !! 1%nat = Some seg /\
        int seg = None /\
        m = "Invalid port number: " +:+ seg)) /\
  (forall s, init dns a = Err (AttributeError s) ->
     s = "ip" /\ a_requestByHostname a = false /\
     truthy_opt (a_ip a) = false /\
     truthy_opt (a_proxy a) || truthy_list (a_proxylist a) = true).
Proof.
  assert (Hcases : forall e, init dns a = Err e ->
    e = ValueError "Invalid IPv6 URL" \/
    (exists parsed,
        Urllib.urlparse (with_slash (a_url a)) = Ok parsed /\
        contains "://" (with_slash (a_url a)) = true /\
        Urllib.scheme parsed <> "https" /\ Urllib.scheme parsed <> "http" /\
        e = RequestException ("Unsupported URL scheme: " +:+ Urllib.scheme parsed)) \/
    (e = RequestException "Couldn't resolve DNS" /\
     truthy_opt (a_ip a) = false /\
     truthy_opt (a_proxy a) || truthy_list (a_proxylist a) = false) \/
    (exists parsed seg,
        parse_target (with_slash (a_url a)) (a_scheme a) = Ok parsed /\
        split ":" (Urllib.netloc parsed) !! 1%nat = Some seg /\
        int seg = None /\
        e = RequestException ("Invalid port number: " +:+ seg)) \/
    (e = AttributeError "ip" /\ a_requestByHostname a = false /\
     truthy_opt (a_ip a) = false /\
     truthy_opt (a_proxy a) || truthy_list (a_proxylist a) = true)).
  { intros e. unfold init.
    destruct (parse_target (with_slash (a_url a)) (a_scheme a)) as [parsed|e0] eqn:Ep;
      cbn [bind].
    2:{ intros [= <-]. unfold parse_target in Ep.
        destruct (Urllib.urlparse (with_slash (a_url a))) as [p0|e1] eqn:E1;
          cbn [bind] in Ep.
        - destruct (contains "://" (with_slash (a_url a))) eqn:Ec; cbn [negb] in Ep.
          + cbn [existsb] in Ep.
            destruct (String.eqb_spec (Urllib.scheme p0) "https") as [H1|H1];
              [discriminate Ep |].
            destruct (String.eqb_spec (Urllib.scheme p0) "http") as [H2|H2];
              [discriminate Ep |].
            cbn in Ep. injection Ep as <-. right; left. exists p0. auto.
          + left. exact (urlparse_error _ _ Ep).
        - injection Ep as <-. left. exact (urlparse_error _ _ E1). }
    destruct (resolve_ip dns a _) as [ipv|e1] eqn:Ei; cbn [bind].
    2:{ intros [= <-]. right; right; left. unfold resolve_ip in Ei.
        destruct (truthy_opt (a_ip a)); [discriminate Ei |].
        destruct (truthy_opt (a_proxy a)), (truthy_list (a_proxylist a));
          simpl in Ei; try discriminate Ei.
        destruct (dns _); [discriminate Ei |]. injection Ei as <-. auto. }
    destruct (parse_port _ _) as [p|e2] eqn:Epo; cbn [bind].
    2:{ intros [= <-]. right; right; right; left. unfold parse_port in Epo.
        destruct (split ":" _ !! 1%nat) as [seg|] eqn:Es; [| discriminate Epo].
        destruct (int seg) eqn:Eint; [discriminate Epo |]. injection Epo as <-.
        exists parsed, seg. auto. }
    destruct (a_requestByHostname a) eqn:Er; cbn [bind]; [discriminate |].
    destruct ipv as [addr|]; cbn [bind]; [discriminate |].
    intros [= <-]. right; right; right; right.
    unfold resolve_ip in Ei.
    destruct (truthy_opt (a_ip a)) eqn:Eip;
      [injection Ei as Ei; rewrite Ei in Eip; discriminate Eip |].
    destruct (truthy_opt (a_proxy a)), (truthy_list (a_proxylist a));
      simpl in Ei |- *; auto.
    destruct (dns _); discriminate Ei. }
  split.
  - intros m H.
    destruct (Hcases _ H)
      as [He | [(parsed & Hp & Hc & H1 & H2 & He) | [(He & Hi & Hx) |
          [(parsed & seg & Hp & Hs & Hn & He) | (He & _)]]]]; try discriminate He.
    + injection He as ->. left. exists parsed. auto.
    + injection He as ->. right; left. auto.
    + injection He as ->. right; right. exists parsed, seg. auto.
  - intros s H.
    destruct (Hcases _ H)
      as [He | [(parsed & _ & _ & _ & _ & He) | [(He & _) |
          [(parsed & seg & _ & _ & _ & He) | (He & Hr & Hi & Hx)]]]]; try discriminate He.
    injection He as ->. auto.
Qed.

Lemma construction_errors_witness :
  init dns_up (args_with_proxy "http://host/" "127.0.0.1:8080") = Err (AttributeError "ip") /\
  a_requestByHostname (args_with_proxy "http://host/" "127.0.0.1:8080") = false /\
  truthy_opt (a_ip (args_with_proxy "http://host/" "127.0.0.1:8080")) = false /\
  exists parsed seg,
    parse_target (with_slash "http://host:abc/") None = Ok parsed /\
    split ":" (Urllib.netloc parsed) !! 1%nat = Some seg /\
    int seg = None /\
    "Invalid port number: abc" = "Invalid port number: " +:+ seg.
Proof.
  split; [reflexivity |].
  destruct (proj2 (construction_errors dns_up
                     (args_with_proxy "http://host/" "127.0.0.1:8080")) "ip" eq_refl)
    as (_ & Hr & Hi & _).
  split; [exact Hr |]. split; [exact Hi |].
  destruct (proj1 (construction_errors dns_up (default_args "http://host:abc/"))
              "Invalid port number: abc" eq_refl)
    as [(parsed & _ & _ & _ & _ & Hm) | [(Hm & _) | Hport]];
    [discriminate Hm | discriminate Hm | exact Hport].
Defined.

Lemma user_agent_rotation_witness :
  Forall (fun att => exists ua, ua ∈ ["agent-one"; "agent-two"] /\
                     x_headers (exchange att) !! "User-Agent" = Some (Some ua))
         (log (run fail_then_succeed first_draw requester_with_agents "admin" None)) /\
  headers (self (run fail_then_succeed first_draw requester_with_agents "admin" None))
    !! "Host" = Some (Some "host").
Proof.
  destruct (user_agent_rotation fail_then_succeed first_draw requester_with_agents
              "admin" None) as (Hrot & _ & Hkey).
  split; [exact (Hrot _ _ eq_refl) |].
  exact (proj1 (Hkey "Host" ltac:(discriminate))).
Defined.

Lemma proxy_of_every_attempt_witness :
  Forall (fun att => used_proxy att = Some "http://10.1.1.1:3128" /\
                     x_proxies (exchange att)
                     = Some {[ "http" := "http://10.1.1.1:3128";
                               "https" := "http://10.1.1.1:3128" ]})
         (log (run fail_then_succeed first_draw requester_with_proxylist "admin"
                   (Some "10.1.1.1:3128"))).
Proof.
  exact (proj1 (proxy_of_every_attempt fail_then_succeed first_draw
                  requester_with_proxylist "admin" (Some "10.1.1.1:3128"))
               "10.1.1.1:3128" eq_refl eq_refl).
Defined.
